(** * homebridge-hue-transitions: the scene-state reconciliation core

    A shallow embedding of [src/api.ts] (the bridge API client),
    [src/sceneAccessory.ts] (the scene switch accessory), the client
    bootstrap and the poll loop of [src/platform.ts] (the
    reconciliation coordinator) and the scene selector of
    [src/server.ts], with the properties of the specification, and
    further properties of the code, proved over it.

    JavaScript [number]s that the code only uses as integers
    (milliseconds, minutes, HTTP status codes) are [Z].  [async] methods
    are programs of a small resumption monad: they run synchronously up
    to an [await] of a promise that is not settled yet, and are resumed
    with the way that promise settles.  The suspension points are the
    calls on the bridge; what the host does in between (other calls on
    the same object, the clock) is a change of the world that a program
    is resumed in.

    Outside the model: the retries that axios makes inside one request,
    the registry behind [updateCharacteristic], and the listeners behind
    [emit], which run synchronously and are recorded as one event. *)

From stdpp Require Import base strings list gmap fin_maps pretty.
From Stdlib Require Import ZArith Lia.

Local Open Scope string_scope.
Local Open Scope list_scope.
Local Open Scope Z_scope.

(** The double quote of the log lines that quote a scene's name. *)
Definition dquote : string := String (Ascii.ascii_of_nat 34) EmptyString.

(** ** Data model, [src/types.ts] *)

(** [SceneConfig]; the fields are prefixed because another record has
    an [id] as well. *)
Record SceneConfig := {
  cfg_id : string;
  cfg_name : string;
  cfg_transitionDuration : Z (* in minutes *)
}.

(** [HueTransitionsPlatformConfig], the fields the polling loop and the
    accessory read. [debug?: boolean] is optional. *)
Record HueTransitionsPlatformConfig := {
  scenes : list SceneConfig;
  debug : option bool
}.

(** JavaScript truthiness of an optional boolean. *)
Definition truthy (b : option bool) : bool :=
  match b with Some true => true | _ => false end.

(** [status.active: 'inactive' | 'static' | 'dynamic_palette'] *)
Inductive ActiveTag := inactive | static | dynamic_palette.

#[global] Instance ActiveTag_eq_dec : EqDecision ActiveTag.
Proof. solve_decision. Defined.

Record SceneStatus := { active : ActiveTag }.

(** [HueScene], the fields the code reads: [id], [metadata.name] and
    the optional [status]. *)
Record HueScene := {
  scene_id : string;
  metadata_name : string;
  status : option SceneStatus
}.

(** [HueAuthResponse]: both fields are optional. *)
Record AuthSuccess := { username : string }.
Record AuthError := {
  auth_type : Z;
  auth_address : string;
  auth_description : string
}.
Record HueAuthResponse := {
  success : option (list AuthSuccess);
  error : option AuthError
}.

(** The response envelope [{errors: [{description}], data: [...]}] of
    [HueResourceListResponse<T>] and [HueSingleResourceResponse<T>]. *)
Record ApiErrorEntry := { description : string }.
Record HueResourceResponse (T : Type) := {
  errors : list ApiErrorEntry;
  data : list T
}.
Arguments errors {T} _.
Arguments data {T} _.

(** [SceneRecallRequest]: [{recall: {action: 'active', duration?}}]. *)
Inductive RecallAction := action_active.
Record Recall := {
  action : RecallAction;
  duration : option Z (* in milliseconds *)
}.
Record SceneRecallRequest := { recall : Recall }.

(** ** Errors and settled promises *)

Inductive HAPStatus := SERVICE_COMMUNICATION_FAILURE.

(** The values the code throws and catches. [AxiosError] is the only one
    for which [axios.isAxiosError] holds; it carries the [message], the
    optional [code] and the optional [response.status]. *)
Inductive JsError :=
| AxiosError (message : string) (code : option string) (response_status : option Z)
| PlainError (message : string)
| TypeError (message : string)
| HapStatusError (hapStatus : HAPStatus).

(** [error instanceof Error ? error.message : String(error)]: all of the
    above are instances of [Error]. *)
Definition error_message (e : JsError) : string :=
  match e with
  | AxiosError m _ _ => m
  | PlainError m => m
  | TypeError m => m
  | HapStatusError SERVICE_COMMUNICATION_FAILURE => "HAP Status Error: -70402"
  end.

(** How a promise settles. *)
Inductive Settled (A : Type) :=
| Fulfilled (a : A)
| Rejected (e : JsError).
Arguments Fulfilled {A} a.
Arguments Rejected {A} e.

(** ** Synchronous effects on the host *)

Inductive LogLevel := LDebug | LInfo | LWarn | LError.

(** The callback handed to [setTimeout] in [setOn]. *)
Inductive Callback := UpdateOnLater (value : bool).

Inductive Effect :=
| Log (lvl : LogLevel) (msg : string)
| LogWith (lvl : LogLevel) (msg : string) (arg : JsError)
| SetTimeout (cb : Callback) (ms : Z)
| UpdateCharacteristicOn (value : bool)
| Emit_sceneUpdated (sceneId : string) (isActive : bool).

(** ** The resumption monad of [async] functions

    [Sig] is the signature of the promises a program awaits, [Ans r] the
    type a promise of request [r] fulfils with, and [S] the fields of
    [this]. *)
Section Async.
Context {Sig : Type} {Ans : Sig -> Type} {S : Type}.

Inductive async (A : Type) : Type :=
| Ret (a : A)
| Throw (e : JsError)
| GetState (k : S -> async A)
| SetState (s : S) (k : async A)
| DateNow (k : Z -> async A)
| Perform (e : Effect) (k : async A)
| Await (r : Sig) (k : Settled (Ans r) -> async A).

Arguments Ret {A} a.
Arguments Throw {A} e.
Arguments GetState {A} k.
Arguments SetState {A} s k.
Arguments DateNow {A} k.
Arguments Perform {A} e k.
Arguments Await {A} r k.

(** Continue with the way [p] completes, normally or by a throw. *)
Fixpoint settle {A B} (p : async A) (f : Settled A -> async B) : async B :=
  match p with
  | Ret a => f (Fulfilled a)
  | Throw e => f (Rejected e)
  | GetState k => GetState (fun s => settle (k s) f)
  | SetState s k => SetState s (settle k f)
  | DateNow k => DateNow (fun t => settle (k t) f)
  | Perform e k => Perform e (settle k f)
  | Await r k => Await r (fun x => settle (k x) f)
  end.

Definition bind {A B} (p : async A) (f : A -> async B) : async B :=
  settle p (fun x => match x with Fulfilled a => f a | Rejected e => Throw e end).

(** [try { p } catch (error) { h error }] *)
Definition try_catch {A} (p : async A) (h : JsError -> async A) : async A :=
  settle p (fun x => match x with Fulfilled a => Ret a | Rejected e => h e end).

(** [try { p } finally { fin }]: [fin] runs either way, then [p]'s
    completion stands (unless [fin] itself throws). *)
Definition try_finally {A} (p : async A) (fin : async unit) : async A :=
  settle p (fun x =>
    bind fin (fun _ => match x with Fulfilled a => Ret a | Rejected e => Throw e end)).

(** [await] of a promise: its value, or a throw of its rejection. *)
Definition await (r : Sig) : async (Ans r) :=
  Await r (fun x => match x with Fulfilled a => Ret a | Rejected e => Throw e end).

Definition modify (f : S -> S) : async unit :=
  GetState (fun s => SetState (f s) (Ret tt)).

Definition perform (e : Effect) : async unit := Perform e (Ret tt).

(** [if (c) { p }] *)
Definition when (c : bool) (p : async unit) : async unit :=
  if c then p else Ret tt.

(** [for (const x of l) { body x }] *)
Fixpoint for_of {X} (l : list X) (body : X -> async unit) : async unit :=
  match l with
  | [] => Ret tt
  | x :: l' => bind (body x) (fun _ => for_of l' body)
  end.

(** *** Running a program up to its next suspension *)

Inductive Event :=
| Did (e : Effect)
| Requested (r : Sig).

Record World := {
  this : S;
  clock : Z;
  trace : list Event
}.

Definition with_this (s : S) (w : World) : World :=
  {| this := s; clock := clock w; trace := trace w |}.

Definition record (ev : Event) (w : World) : World :=
  {| this := this w; clock := clock w; trace := trace w ++ [ev] |}.

(** The clock is the host's: it may be anything when a program is
    resumed. *)
Definition at_time (t : Z) (w : World) : World :=
  {| this := this w; clock := t; trace := trace w |}.

Inductive Susp (A : Type) : Type :=
| Finished (x : Settled A)
| Pending (r : Sig) (k : Settled (Ans r) -> async A).
Arguments Finished {A} x.
Arguments Pending {A} r k.

Fixpoint run {A} (p : async A) (w : World) : World * Susp A :=
  match p with
  | Ret a => (w, Finished (Fulfilled a))
  | Throw e => (w, Finished (Rejected e))
  | GetState k => run (k (this w)) w
  | SetState s k => run k (with_this s w)
  | DateNow k => run (k (clock w)) w
  | Perform e k => run k (record (Did e) w)
  | Await r k => (record (Requested r) w, Pending r k)
  end.

(** The requests, and the broadcasts, of a trace. *)
Definition requests (tr : list Event) : list Sig :=
  omap (fun ev => match ev with Requested r => Some r | Did _ => None end) tr.

Definition broadcasts (tr : list Event) : list (string * bool) :=
  omap (fun ev => match ev with
                  | Did (Emit_sceneUpdated i b) => Some (i, b)
                  | _ => None
                  end) tr.
End Async.

Arguments async : clear implicits.
Arguments Event : clear implicits.
Arguments World : clear implicits.
Arguments Susp : clear implicits.
Arguments Ret {Sig Ans S A} a.
Arguments Throw {Sig Ans S A} e.
Arguments GetState {Sig Ans S A} k.
Arguments SetState {Sig Ans S A} s k.
Arguments DateNow {Sig Ans S A} k.
Arguments Perform {Sig Ans S A} e k.
Arguments Await {Sig Ans S A} r k.
Arguments Finished {Sig Ans S A} x.
Arguments Pending {Sig Ans S A} r k.
Arguments Did {Sig} e.
Arguments Requested {Sig} r.

Notation "x <- p ;; q" := (bind p (fun x => q))
  (at level 63, p at next level, right associativity).
Notation "p ;;; q" := (bind p (fun _ => q))
  (at level 63, right associativity).

(** ** The bridge API client, [src/api.ts] *)

(** [settings.ts]: [API_CONFIG.API_VERSION] and [REQUEST_TIMEOUT]. *)
Definition API_VERSION : string := "v2".
Definition REQUEST_TIMEOUT : Z := 10000.

(** The axios instance that the constructor creates. The retry policy
    lives inside axios and is not part of this model: a request here is
    the whole exchange, retries included. *)
Record HueApiClient := {
  baseURL : string;
  hue_application_key : string;
  timeout : Z
}.

Definition new_HueApiClient (bridgeIp apiKey : string) : HueApiClient :=
  {| baseURL := "https://" +:+ bridgeIp +:+ "/clip/" +:+ API_VERSION;
     hue_application_key := apiKey;
     timeout := REQUEST_TIMEOUT |}.

(** The HTTP requests of the client, one constructor per typed axios
    call, and the type of [response.data] of each. *)
Inductive HttpReq :=
| AxiosPostAuth (url : string) (devicetype : string)
| ClientGetScenes (client : HueApiClient) (path : string)
| ClientGetScene (client : HueApiClient) (path : string)
| ClientPutScene (client : HueApiClient) (path : string) (body : SceneRecallRequest).

Definition HttpData (r : HttpReq) : Type :=
  match r with
  | AxiosPostAuth _ _ => list HueAuthResponse
  | ClientGetScenes _ _ => HueResourceResponse HueScene
  | ClientGetScene _ _ => HueResourceResponse HueScene
  | ClientPutScene _ _ _ => HueResourceResponse HueScene
  end.

Definition http : Type -> Type -> Type := async HttpReq HttpData.

(** [errors.map(e => e.description).join(', ')] *)
Definition join_descriptions (es : list ApiErrorEntry) : string :=
  String.concat ", " (map description es).

Section ApiClient.
Context {S : Type}.

(** [handleApiError(error): never]: the error it throws for an
    [AxiosError] with the given fields. *)
Definition handleApiError (message : string) (code : option string)
    (response_status : option Z) : JsError :=
  let by_code :=
    match code with
    | Some "ECONNREFUSED" =>
        PlainError "Cannot connect to Hue bridge - check bridge IP address"
    | Some "ETIMEDOUT" => PlainError "Connection to Hue bridge timed out"
    | _ => PlainError ("Hue API error: " +:+ message)
    end in
  match response_status with
  | Some status =>
      if (status =? 401) || (status =? 403)
      then PlainError "Authentication failed - please check your API key"
      else if status =? 404 then PlainError "Resource not found on Hue bridge"
      else if status =? 429
      then PlainError "Rate limit exceeded - too many requests to Hue bridge"
      else if 500 <=? status then PlainError "Hue bridge server error"
      else by_code
  | None => by_code
  end.

(** The [catch] block shared by the instance methods. *)
Definition rethrow_api {A} (error : JsError) : http S A :=
  match error with
  | AxiosError m c st => Throw (handleApiError m c st)
  | _ => Throw error
  end.

(** The envelope check shared by the instance methods. *)
Definition check_errors {T} (response_data : HueResourceResponse T) : http S unit :=
  if 0 <? Z.of_nat (length (errors response_data))
  then Throw (PlainError ("Hue API errors: " +:+ join_descriptions (errors response_data)))
  else Ret tt.

(** [static async createApiKey(bridgeIp, appName, deviceName)]. An empty
    answer makes [response.data[0]] undefined, and reading [success] of
    it a [TypeError]. *)
Definition createApiKey (bridgeIp appName deviceName : string) : http S string :=
  try_catch
    (response_data <- await (AxiosPostAuth ("https://" +:+ bridgeIp +:+ "/api")
                               (appName +:+ "#" +:+ deviceName)) ;;
     match response_data with
     | [] => Throw (TypeError "Cannot read properties of undefined (reading 'success')")
     | result :: _ =>
         let on_error :=
           match error result with
           | Some e => Throw (PlainError (auth_description e))
           | None => Throw (PlainError "Unexpected response format from Hue bridge")
           end in
         match success result with
         | Some (first :: _) => Ret (username first)
         | Some [] => on_error
         | None => on_error
         end
     end)
    (fun error =>
       match error with
       | AxiosError m _ _ => Throw (PlainError ("Failed to create API key: " +:+ m))
       | _ => Throw error
       end).

(** [async getScenes()] *)
Definition getScenes (client : HueApiClient) : http S (list HueScene) :=
  try_catch
    (response_data <- await (ClientGetScenes client "/resource/scene") ;;
     check_errors response_data ;;;
     Ret (data response_data))
    rethrow_api.

(** [async getScene(sceneId)] *)
Definition getScene (client : HueApiClient) (sceneId : string) : http S HueScene :=
  try_catch
    (response_data <- await (ClientGetScene client ("/resource/scene/" +:+ sceneId)) ;;
     check_errors response_data ;;;
     match data response_data with
     | [] => Throw (PlainError ("Scene " +:+ sceneId +:+ " not found"))
     | scene :: _ => Ret scene
     end)
    rethrow_api.

(** The request body that [recallScene] builds. *)
Definition recall_request (transitionMs : option Z) : SceneRecallRequest :=
  let request := {| recall := {| action := action_active; duration := None |} |} in
  match transitionMs with
  | Some ms =>
      if 0 <? ms
      then {| recall := {| action := action (recall request); duration := Some ms |} |}
      else request
  | None => request
  end.

(** [async recallScene(sceneId, transitionMs?)] *)
Definition recallScene (client : HueApiClient) (sceneId : string)
    (transitionMs : option Z) : http S unit :=
  try_catch
    (let request := recall_request transitionMs in
     response_data <- await (ClientPutScene client ("/resource/scene/" +:+ sceneId) request) ;;
     check_errors response_data)
    rethrow_api.
End ApiClient.

(** ** The calls on the client that the accessory and the platform await *)

Inductive ApiCall :=
| Call_getScenes (api : HueApiClient)
| Call_getScene (api : HueApiClient) (sceneId : string)
| Call_recallScene (api : HueApiClient) (sceneId : string) (transitionMs : option Z).

Definition ApiResult (c : ApiCall) : Type :=
  match c with
  | Call_getScenes _ => list HueScene
  | Call_getScene _ _ => HueScene
  | Call_recallScene _ _ _ => unit
  end.

Definition task : Type -> Type -> Type := async ApiCall ApiResult.

(** The method behind each call. *)
Definition api_method {S} (c : ApiCall) : http S (ApiResult c) :=
  match c with
  | Call_getScenes api => getScenes api
  | Call_getScene api sceneId => getScene api sceneId
  | Call_recallScene api sceneId transitionMs => recallScene api sceneId transitionMs
  end.

(** A program over the client's calls, with each call replaced by the
    method of [src/api.ts]: the program as it runs against the bridge. *)
Fixpoint link {S A} (p : task S A) : http S A :=
  match p with
  | Ret a => Ret a
  | Throw e => Throw e
  | GetState k => GetState (fun s => link (k s))
  | SetState s k => SetState s (link k)
  | DateNow k => DateNow (fun t => link (k t))
  | Perform e k => Perform e (link k)
  | Await c k => settle (api_method c) (fun x => link (k x))
  end.

(** [scene.status?.active]: [undefined] when the scene has no [status]. *)
Definition status_active (scene : HueScene) : option ActiveTag :=
  active <$> status scene.

(** [scene.status?.active === 'static' || scene.status?.active === 'dynamic_palette'] *)
Definition isActive_of (scene : HueScene) : bool :=
  bool_decide (status_active scene = Some static)
  || bool_decide (status_active scene = Some dynamic_palette).

(** [scene.status?.active ?? 'unknown'] in a template literal. *)
Definition status_text (scene : HueScene) : string :=
  match status scene with
  | Some st =>
      match active st with
      | inactive => "inactive"
      | static => "static"
      | dynamic_palette => "dynamic_palette"
      end
  | None => "unknown"
  end.

Definition bool_text (b : bool) : string := if b then "true" else "false".

(** ** The scene accessory, [src/sceneAccessory.ts] *)

(** The mutable fields of a [HueSceneAccessory]. *)
Record HueSceneAccessory := {
  isActivating : bool;
  lastActivated : option Z
}.

Definition set_isActivating (b : bool) (a : HueSceneAccessory) : HueSceneAccessory :=
  {| isActivating := b; lastActivated := lastActivated a |}.

Definition set_lastActivated (t : option Z) (a : HueSceneAccessory) : HueSceneAccessory :=
  {| isActivating := isActivating a; lastActivated := t |}.

(** [new HueSceneAccessory(...)]: the field initialisers. *)
Definition new_HueSceneAccessory : HueSceneAccessory :=
  {| isActivating := false; lastActivated := None |}.

(** The log lines of the accessory, each a template literal of the
    source over the scene's [name]. *)

(** [`Scene ${name} status: ${scene.status?.active ?? 'unknown'}, isActive: ${isActive}`] *)
Definition log_status (sceneConfig : SceneConfig) (scene : HueScene) : Effect :=
  Log LDebug ("Scene " +:+ cfg_name sceneConfig +:+ " status: " +:+ status_text scene
                +:+ ", isActive: " +:+ bool_text (isActive_of scene)).

(** [`Failed to get scene status for ${name}: ${errorMessage}`] *)
Definition log_fetch_failed (sceneConfig : SceneConfig) (e : JsError) : Effect :=
  Log LWarn ("Failed to get scene status for " +:+ cfg_name sceneConfig +:+ ": "
               +:+ error_message e).

(** [`Error getting state for scene ${name}: ${errorMessage}`] *)
Definition log_get_error (sceneConfig : SceneConfig) (e : JsError) : Effect :=
  Log LError ("Error getting state for scene " +:+ cfg_name sceneConfig +:+ ": "
                +:+ error_message e).

(** [`Scene ${name} is already activating, ignoring request`] *)
Definition log_ignored (sceneConfig : SceneConfig) : Effect :=
  Log LDebug ("Scene " +:+ cfg_name sceneConfig +:+ " is already activating, ignoring request").

(** [`Activating scene "${name}" with ${transitionDuration} minute transition`] *)
Definition log_activating (sceneConfig : SceneConfig) : Effect :=
  Log LInfo ("Activating scene " +:+ dquote +:+ cfg_name sceneConfig +:+ dquote +:+ " with "
               +:+ pretty (cfg_transitionDuration sceneConfig) +:+ " minute transition").

(** [`Successfully activated scene "${name}"`] *)
Definition log_activated (sceneConfig : SceneConfig) : Effect :=
  Log LInfo ("Successfully activated scene " +:+ dquote +:+ cfg_name sceneConfig +:+ dquote).

(** [`Scene ${name} turned off (no action taken)`] *)
Definition log_turned_off (sceneConfig : SceneConfig) : Effect :=
  Log LDebug ("Scene " +:+ cfg_name sceneConfig +:+ " turned off (no action taken)").

(** [`Failed to activate scene ${name}: ${errorMessage}`] *)
Definition log_failed (sceneConfig : SceneConfig) (e : JsError) : Effect :=
  Log LError ("Failed to activate scene " +:+ cfg_name sceneConfig +:+ ": "
                +:+ error_message e).

(** [`Updating scene ${name} state to ${isActive}`] *)
Definition log_updating (sceneConfig : SceneConfig) (isActive : bool) : Effect :=
  Log LDebug ("Updating scene " +:+ cfg_name sceneConfig +:+ " state to "
                +:+ bool_text isActive).

Section SceneAccessory.
(** The [readonly] fields: the scene, the client and the platform's
    configuration. *)
Variable sceneConfig : SceneConfig.
Variable api : HueApiClient.
Variable config : HueTransitionsPlatformConfig.

(** The inner [try] of [getOn]: ask the bridge for the scene's status. *)
Definition getOn_fetch : task HueSceneAccessory bool :=
  try_catch
    (scene <- await (Call_getScene api (cfg_id sceneConfig)) ;;
     let isActive := isActive_of scene in
     when (truthy (debug config)) (perform (log_status sceneConfig scene)) ;;;
     Ret isActive)
    (fun error =>
       perform (log_fetch_failed sceneConfig error) ;;;
       Ret false).

(** [async getOn()] *)
Definition getOn : task HueSceneAccessory bool :=
  try_catch
    (GetState (fun self =>
       match lastActivated self with
       | Some t0 =>
           DateNow (fun now =>
             let timeSinceActivation := now - t0 in
             if timeSinceActivation <? 30000 then Ret true else getOn_fetch)
       | None => getOn_fetch
       end))
    (fun error =>
       perform (log_get_error sceneConfig error) ;;;
       Throw (HapStatusError SERVICE_COMMUNICATION_FAILURE)).

(** [async setOn(value)]. The early return is before the [try], so the
    [finally] does not run for it. *)
Definition setOn (value : bool) : task HueSceneAccessory unit :=
  let isOn := value in
  GetState (fun self =>
    if isActivating self
    then perform (log_ignored sceneConfig)
    else
      try_finally
        (try_catch
           (if isOn then
              modify (set_isActivating true) ;;;
              let transitionMs := cfg_transitionDuration sceneConfig * 60 * 1000 in
              perform (log_activating sceneConfig) ;;;
              await (Call_recallScene api (cfg_id sceneConfig) (Some transitionMs)) ;;;
              DateNow (fun now =>
                modify (set_lastActivated (Some now)) ;;;
                perform (log_activated sceneConfig))
            else
              modify (set_lastActivated None) ;;;
              when (truthy (debug config)) (perform (log_turned_off sceneConfig)))
           (fun error =>
              perform (log_failed sceneConfig error) ;;;
              perform (SetTimeout (UpdateOnLater (negb isOn)) 100) ;;;
              Throw (HapStatusError SERVICE_COMMUNICATION_FAILURE)))
        (modify (set_isActivating false))).

(** The timer callback of [setOn], when the host fires it:
    [updateCharacteristic(On, !isOn)]. *)
Definition fire (cb : Callback) : task HueSceneAccessory unit :=
  match cb with
  | UpdateOnLater v => perform (UpdateCharacteristicOn v)
  end.

(** [handleSceneUpdate(sceneId, isActive)], the [sceneUpdated] listener. *)
Definition handleSceneUpdate (sceneId : string) (isActive : bool)
    : task HueSceneAccessory unit :=
  if decide (sceneId = cfg_id sceneConfig) then
    when (truthy (debug config)) (perform (log_updating sceneConfig isActive)) ;;;
    perform (UpdateCharacteristicOn isActive)
  else Ret tt.
End SceneAccessory.

(** ** The polling loop of the platform, [src/platform.ts] *)

(** The mutable fields of [HueTransitionsPlatform] that polling uses. *)
Record HueTransitionsPlatform := {
  apiClient : option HueApiClient;
  isPolling : bool
}.

Definition set_isPolling (b : bool) (p : HueTransitionsPlatform) : HueTransitionsPlatform :=
  {| apiClient := apiClient p; isPolling := b |}.

(** [new Map<string, HueScene>(entries)]: the entries are set in order,
    so a later entry replaces an earlier one with the same key. *)
Definition new_Map (entries : list (string * HueScene)) : gmap string HueScene :=
  foldl (fun m e => <[e.1 := e.2]> m) ∅ entries.

(** [this.log.error('Error polling scene status:', error)] *)
Definition log_poll_failed (e : JsError) : Effect :=
  LogWith LError "Error polling scene status:" e.

Section Platform.
Variable config : HueTransitionsPlatformConfig.

(** The body of the [for] loop of [pollSceneStatus]. *)
Definition poll_scene (sceneMap : gmap string HueScene) (sceneConfig : SceneConfig)
    : task HueTransitionsPlatform unit :=
  match sceneMap !! cfg_id sceneConfig with
  | Some scene =>
      let isActive := isActive_of scene in
      perform (Emit_sceneUpdated (cfg_id sceneConfig) isActive)
  | None => Ret tt
  end.

(** [private async pollSceneStatus()] *)
Definition pollSceneStatus : task HueTransitionsPlatform unit :=
  GetState (fun self =>
    if isPolling self || negb (bool_decide (is_Some (apiClient self)))
    then Ret tt
    else
      modify (set_isPolling true) ;;;
      try_finally
        (try_catch
           (GetState (fun self' =>
              match apiClient self' with
              | Some client =>
                  scenes' <- await (Call_getScenes client) ;;
                  let sceneMap :=
                    new_Map ((fun s => (scene_id s, s)) <$> (scenes' : list HueScene)) in
                  for_of (scenes config) (poll_scene sceneMap) ;;;
                  when (truthy (debug config))
                    (perform (Log LDebug "Scene status poll completed"))
              | None =>
                  Throw (TypeError "Cannot read properties of null (reading 'getScenes')")
              end))
           (fun error => perform (log_poll_failed error)))
        (modify (set_isPolling false))).
End Platform.

(** ** Vocabulary of the properties *)

(** The call that [setOn(true)] makes on the client. *)
Definition recall_call (sceneConfig : SceneConfig) (api : HueApiClient) : ApiCall :=
  Call_recallScene api (cfg_id sceneConfig)
    (Some (cfg_transitionDuration sceneConfig * 60 * 1000)).

(** Outside the 30-second window: no activation remembered, or one
    that is 30000 ms old or older. *)
Definition outside_window (w : World ApiCall HueSceneAccessory) : Prop :=
  match lastActivated (this w) with
  | Some t0 => 30000 <= clock w - t0
  | None => True
  end.

(** What a tick broadcasts for the configured scenes [l], given the map
    of the bridge's scenes: one event per configured scene that the map
    has, in the order of [l]. *)
Definition loop_broadcasts (sceneMap : gmap string HueScene) (l : list SceneConfig)
    : list (string * bool) :=
  omap (fun sc => (fun s => (cfg_id sc, isActive_of s)) <$> sceneMap !! cfg_id sc) l.

Definition emit_event {Sig : Type} (b : string * bool) : Event Sig :=
  Did (Emit_sceneUpdated b.1 b.2).

(** The world with more events on its trace. *)
Definition extend {Sig S : Type} (evs : list (Event Sig)) (w : World Sig S) : World Sig S :=
  {| this := this w; clock := clock w; trace := trace w ++ evs |}.

(** The [sceneMap] that [pollSceneStatus] builds from the bridge's answer. *)
Definition bridge_map (bridge : list HueScene) : gmap string HueScene :=
  new_Map ((fun s => (scene_id s, s)) <$> bridge).

(** The order that the specification states for the broadcasts of a
    tick: the scenes of the bridge's answer that are configured, in the
    order of that answer. *)
Definition bridge_order_broadcasts (config : HueTransitionsPlatformConfig)
    (bridge : list HueScene) : list (string * bool) :=
  (fun s => (scene_id s, isActive_of s))
    <$> filter (fun s => scene_id s ∈ cfg_id <$> scenes config) bridge.

(** The same scene with an absent [status] read as [inactive]. *)
Definition absent_as_inactive (s : HueScene) : HueScene :=
  match status s with
  | Some _ => s
  | None => {| scene_id := scene_id s; metadata_name := metadata_name s;
               status := Some {| active := inactive |} |}
  end.

(** The POST of [createApiKey]. *)
Definition auth_post (bridgeIp appName deviceName : string) : HttpReq :=
  AxiosPostAuth ("https://" +:+ bridgeIp +:+ "/api") (appName +:+ "#" +:+ deviceName).

(** ** Concrete inputs, the ones of the repository's tests *)

Definition example_scene : SceneConfig :=
  {| cfg_id := "scene-1"; cfg_name := "Test Scene"; cfg_transitionDuration := 30 |}.

Definition example_api : HueApiClient := new_HueApiClient "192.168.1.100" "test-api-key".

Definition example_config : HueTransitionsPlatformConfig :=
  {| scenes := [example_scene]; debug := Some false |}.

Definition fresh_world {Sig S : Type} (s : S) : World Sig S :=
  {| this := s; clock := 1700000000000; trace := [] |}.

Definition ready_platform : HueTransitionsPlatform :=
  {| apiClient := Some example_api; isPolling := false |}.

(** Two configured scenes that the bridge returns in the other order. *)
Definition scene_A : SceneConfig :=
  {| cfg_id := "A"; cfg_name := "Wake up"; cfg_transitionDuration := 30 |}.

Definition scene_B : SceneConfig :=
  {| cfg_id := "B"; cfg_name := "Wind down"; cfg_transitionDuration := 15 |}.

Definition config_AB : HueTransitionsPlatformConfig :=
  {| scenes := [scene_A; scene_B]; debug := None |}.

Definition bridge_BA : list HueScene :=
  [ {| scene_id := "B"; metadata_name := "Wind down";
       status := Some {| active := static |} |};
    {| scene_id := "A"; metadata_name := "Wake up";
       status := Some {| active := inactive |} |} ].

Definition scene_without_status : HueScene :=
  {| scene_id := "scene-1"; metadata_name := "Test Scene"; status := None |}.

Definition link_button_error : AuthError :=
  {| auth_type := 101; auth_address := EmptyString;
     auth_description := "link button not pressed" |}.

(** * The rest of the client, the platform and the UI server *)

(** ** Optional strings of the configuration *)

(** JavaScript truthiness of an optional string: [undefined] and the
    empty string are falsy. *)
Definition truthy_text (s : option string) : bool :=
  match s with
  | Some EmptyString => false
  | Some _ => true
  | None => false
  end.

(** An optional string in a template literal, or passed where the code
    takes a string. *)
Definition text_of (s : option string) : string :=
  match s with
  | Some t => t
  | None => "undefined"
  end.

(** ** [discoverBridges], [getLights] and [testConnection], [src/api.ts] *)

Definition DISCOVERY_URL : string := "https://discovery.meethue.com".

(** [HueBridgeDiscoveryResponse] *)
Record HueBridgeDiscoveryResponse := {
  bridge_id : string;
  internalipaddress : string;
  port : option Z
}.

(** [HueLight], the fields that identify a light; the code reads none. *)
Record HueLight := {
  light_id : string;
  light_name : string;
  light_on : bool
}.

(** The HTTP requests of these three methods, and the type of
    [response.data] of each. [testConnection] does not look at it. *)
Inductive ProbeReq :=
| AxiosGetDiscovery (url : string) (timeout_ms : Z)
| ClientGetLights (client : HueApiClient) (path : string)
| ClientGetResource (client : HueApiClient) (path : string).

Definition ProbeData (r : ProbeReq) : Type :=
  match r with
  | AxiosGetDiscovery _ _ => list HueBridgeDiscoveryResponse
  | ClientGetLights _ _ => HueResourceResponse HueLight
  | ClientGetResource _ _ => unit
  end.

Definition probe : Type -> Type -> Type := async ProbeReq ProbeData.

Section ApiProbes.
Context {S : Type}.

(** [static async discoverBridges()] *)
Definition discoverBridges : probe S (list HueBridgeDiscoveryResponse) :=
  try_catch
    (response_data <- await (AxiosGetDiscovery DISCOVERY_URL REQUEST_TIMEOUT) ;;
     Ret response_data)
    (fun error =>
       match error with
       | AxiosError m _ _ => Throw (PlainError ("Failed to discover Hue bridges: " +:+ m))
       | _ => Throw error
       end).

(** [async getLights()] *)
Definition getLights (client : HueApiClient) : probe S (list HueLight) :=
  try_catch
    (response_data <- await (ClientGetLights client "/resource/light") ;;
     if 0 <? Z.of_nat (length (errors response_data))
     then Throw (PlainError ("Hue API errors: " +:+ join_descriptions (errors response_data)))
     else Ret (data response_data))
    (fun error =>
       match error with
       | AxiosError m c st => Throw (handleApiError m c st)
       | _ => Throw error
       end).

(** [async testConnection()] *)
Definition testConnection (client : HueApiClient) : probe S bool :=
  try_catch
    (await (ClientGetResource client "/resource") ;;;
     Ret true)
    (fun _ => Ret false).
End ApiProbes.

(** ** Programs over one signature, run over another *)

(** [p] with each awaited call replaced by the program [impl] gives for
    it: [link] for any two signatures. *)
Fixpoint link_with {Sig1 Sig2 : Type} {Ans1 : Sig1 -> Type} {Ans2 : Sig2 -> Type}
    {S A : Type} (impl : forall c : Sig1, async Sig2 Ans2 S (Ans1 c))
    (p : async Sig1 Ans1 S A) : async Sig2 Ans2 S A :=
  match p with
  | Ret a => Ret a
  | Throw e => Throw e
  | GetState k => GetState (fun s => link_with impl (k s))
  | SetState s k => SetState s (link_with impl k)
  | DateNow k => DateNow (fun t => link_with impl (k t))
  | Perform e k => Perform e (link_with impl k)
  | Await c k => settle (impl c) (fun x => link_with impl (k x))
  end.

(** A method of an object, run on a larger object that has it as a
    part: [get] reads the part, [set] writes it back. *)
Fixpoint zoom {Sig : Type} {Ans : Sig -> Type} {S T A : Type}
    (get : T -> S) (set : S -> T -> T) (p : async Sig Ans S A) : async Sig Ans T A :=
  match p with
  | Ret a => Ret a
  | Throw e => Throw e
  | GetState k => GetState (fun t => zoom get set (k (get t)))
  | SetState s k => GetState (fun t => SetState (set s t) (zoom get set k))
  | DateNow k => DateNow (fun n => zoom get set (k n))
  | Perform e k => Perform e (zoom get set k)
  | Await r k => Await r (fun x => zoom get set (k x))
  end.

(** ** [initializeApiClient], [src/platform.ts] *)

(** The calls that [initializeApiClient] awaits. *)
Inductive BootCall :=
| Call_discoverBridges
| Call_testConnection (api : HueApiClient).

Definition BootResult (c : BootCall) : Type :=
  match c with
  | Call_discoverBridges => list HueBridgeDiscoveryResponse
  | Call_testConnection _ => bool
  end.

Definition boot_method {S} (c : BootCall) : probe S (BootResult c) :=
  match c with
  | Call_discoverBridges => discoverBridges
  | Call_testConnection api => testConnection api
  end.

(** The fields of the platform that [initializeApiClient] reads and
    writes: [config.bridgeIp], [config.apiKey] and [apiClient]. *)
Record PlatformBoot := {
  config_bridgeIp : option string;
  config_apiKey : option string;
  boot_apiClient : option HueApiClient
}.

Definition set_config_bridgeIp (ip : option string) (p : PlatformBoot) : PlatformBoot :=
  {| config_bridgeIp := ip; config_apiKey := config_apiKey p;
     boot_apiClient := boot_apiClient p |}.

Definition set_boot_apiClient (c : option HueApiClient) (p : PlatformBoot) : PlatformBoot :=
  {| config_bridgeIp := config_bridgeIp p; config_apiKey := config_apiKey p;
     boot_apiClient := c |}.

(** The log lines that tell how to create an API key: a warning and
    five lines of guidance. *)
Definition log_key_guidance (bridgeIp : option string) : list Effect :=
  [ Log LWarn "API key not configured";
    Log LInfo "To create an API key:";
    Log LInfo "1. Press the link button on your Hue bridge";
    Log LInfo "2. Run the following command within 30 seconds:";
    Log LInfo ("   curl -k -X POST https://" +:+ text_of bridgeIp +:+ "/api "
                 +:+ "-d '{" +:+ dquote +:+ "devicetype" +:+ dquote +:+ ":" +:+ dquote
                 +:+ "homebridge-hue-transitions#homebridge" +:+ dquote +:+ "}'");
    Log LInfo ("3. Copy the " +:+ dquote +:+ "username" +:+ dquote
                 +:+ " value from the response and add it as " +:+ dquote +:+ "apiKey"
                 +:+ dquote +:+ " in the plugin settings") ].

(** [initializeApiClient], from the check of the API key on. *)
Definition connect_client : async BootCall BootResult PlatformBoot unit :=
  GetState (fun self =>
    if negb (truthy_text (config_apiKey self))
    then for_of (log_key_guidance (config_bridgeIp self)) perform
    else
      let client := new_HueApiClient (text_of (config_bridgeIp self))
                      (text_of (config_apiKey self)) in
      modify (set_boot_apiClient (Some client)) ;;;
      isConnected <- await (Call_testConnection client) ;;
      if negb isConnected then
        perform (Log LError
                   "Failed to connect to Hue bridge - please check bridge IP and API key") ;;;
        modify (set_boot_apiClient None)
      else perform (Log LInfo "Successfully connected to Hue bridge")).

(** [private async initializeApiClient()] *)
Definition initializeApiClient : async BootCall BootResult PlatformBoot unit :=
  try_catch
    (GetState (fun self =>
       if negb (truthy_text (config_bridgeIp self)) then
         perform (Log LInfo "Bridge IP not configured - attempting auto-discovery...") ;;;
         bridges <- await Call_discoverBridges ;;
         match bridges with
         | [] =>
             perform (Log LError "✗ Auto-discovery failed: No Hue bridges found on network") ;;;
             perform (Log LError
                        "Please manually configure your bridge IP address in the plugin settings")
         | first :: _ =>
             modify (set_config_bridgeIp (Some (internalipaddress first))) ;;;
             perform (Log LInfo ("✓ Auto-discovery successful! Found Hue bridge at "
                                   +:+ internalipaddress first)) ;;;
             connect_client
         end
       else connect_client))
    (fun error =>
       perform (LogWith LError "Failed to initialize API client:" error) ;;;
       modify (set_boot_apiClient None)).

(** ** [startPolling] and [stopPolling], [src/platform.ts] *)

(** [settings.ts]: [POLLING_CONFIG]. *)
Definition DEFAULT_INTERVAL : Z := 60000.
Definition MIN_INTERVAL : Z := 60000.
Definition MAX_INTERVAL : Z := 300000.

(** The platform with its timer: [pollingInterval] is the handle that
    [setInterval] returns, here the period the timer was set with. *)
Record PollingPlatform := {
  polled : HueTransitionsPlatform;
  pollingInterval : option Z
}.

Definition set_polled (p : HueTransitionsPlatform) (t : PollingPlatform) : PollingPlatform :=
  {| polled := p; pollingInterval := pollingInterval t |}.

Definition set_pollingInterval (i : option Z) (t : PollingPlatform) : PollingPlatform :=
  {| polled := polled t; pollingInterval := i |}.

(** [${validInterval / 1000}]: a whole number of milliseconds divided
    by 1000 prints as its exact decimal, without trailing zeros. *)
Definition seconds_text (ms : Z) : string :=
  let whole := pretty (ms / 1000) in
  let r := ms mod 1000 in
  if r =? 0 then whole
  else if r mod 10 =? 0
  then if (r / 10) mod 10 =? 0
       then whole +:+ "." +:+ pretty (r / 100)
       else whole +:+ "." +:+ pretty (r / 100) +:+ pretty ((r / 10) mod 10)
  else whole +:+ "." +:+ pretty (r / 100) +:+ pretty ((r / 10) mod 10) +:+ pretty (r mod 10).

(** [Math.max(MIN_INTERVAL, Math.min(MAX_INTERVAL, interval))] *)
Definition validInterval_of (interval : Z) : Z :=
  Z.max MIN_INTERVAL (Z.min MAX_INTERVAL interval).

Definition log_interval_corrected (interval validInterval : Z) : Effect :=
  Log LWarn ("Polling interval " +:+ pretty interval +:+ "ms is outside valid range "
               +:+ "(" +:+ pretty MIN_INTERVAL +:+ "-" +:+ pretty MAX_INTERVAL +:+ "ms), "
               +:+ "using " +:+ pretty validInterval +:+ "ms").

Definition log_polling_started (validInterval : Z) : Effect :=
  Log LInfo ("Starting scene status polling every " +:+ seconds_text validInterval
               +:+ " seconds").

Section Polling.
Variable config : HueTransitionsPlatformConfig.
(** [this.config.pollingInterval], a whole number of milliseconds when
    it is given. *)
Variable config_pollingInterval : option Z.

(** One firing of the timer, and the initial poll:
    [void this.pollSceneStatus()]. *)
Definition poll_tick : task PollingPlatform unit :=
  zoom polled set_polled (pollSceneStatus config).

(** [private startPolling()]. The initial poll is its last statement and
    is not awaited: where this program is suspended, [startPolling] has
    returned, and what is pending is that poll. *)
Definition startPolling : task PollingPlatform unit :=
  GetState (fun self =>
    match pollingInterval self with
    | Some _ => Ret tt
    | None =>
        let interval := default DEFAULT_INTERVAL config_pollingInterval in
        let validInterval := validInterval_of interval in
        when (negb (validInterval =? interval))
          (perform (log_interval_corrected interval validInterval)) ;;;
        perform (log_polling_started validInterval) ;;;
        modify (set_pollingInterval (Some validInterval)) ;;;
        poll_tick
    end).

(** [private stopPolling()] *)
Definition stopPolling : task PollingPlatform unit :=
  GetState (fun self =>
    match pollingInterval self with
    | Some _ =>
        modify (set_pollingInterval None) ;;;
        perform (Log LDebug "Stopped scene status polling")
    | None => Ret tt
    end).
End Polling.

(** ** The UI server, [src/server.ts] *)

(** An entry of the scene selector: [{id, name}]. *)
Record SceneChoice := {
  choice_id : string;
  choice_name : string
}.

Section UIServer.
(** [this.config.bridgeIp] and [this.config.apiKey] *)
Variables bridgeIp apiKey : option string.

(** [async getAvailableScenes()] *)
Definition getAvailableScenes : task unit (list SceneChoice) :=
  try_catch
    (if negb (truthy_text bridgeIp) || negb (truthy_text apiKey)
     then Ret []
     else
       let client := new_HueApiClient (text_of bridgeIp) (text_of apiKey) in
       scenes' <- await (Call_getScenes client) ;;
       Ret ((fun scene => {| choice_id := scene_id scene;
                             choice_name := metadata_name scene |})
              <$> (scenes' : list HueScene)))
    (fun error =>
       perform (LogWith LError "Failed to fetch scenes for UI:" error) ;;;
       Ret []).
End UIServer.

(** ** Vocabulary of the further properties *)

(** The HTTP statuses that [handleApiError] names. *)
Definition named_status (status : Z) : Prop :=
  status = 401 \/ status = 403 \/ status = 404 \/ status = 429 \/ 500 <= status.

(** The 30-second window of an accessory at a time [now]: closed when
    no activation is remembered, or one that is 30000 ms old or older. *)
Definition window_closed (a : HueSceneAccessory) (now : Z) : Prop :=
  match lastActivated a with
  | Some t0 => 30000 <= now - t0
  | None => True
  end.

(** An answer to the GET of [getScene] that gives no scene: an error
    envelope, an empty [data], or a failed exchange. *)
Definition gives_no_scene (reply : Settled (HueResourceResponse HueScene)) : Prop :=
  match reply with
  | Fulfilled response => errors response <> [] \/ data response = []
  | Rejected _ => True
  end.

(** The error that [getScene] rejects with for such an answer. *)
Definition getScene_error (sceneId : string)
    (reply : Settled (HueResourceResponse HueScene)) : JsError :=
  match reply with
  | Fulfilled response =>
      match errors response with
      | [] => PlainError ("Scene " +:+ sceneId +:+ " not found")
      | _ :: _ => PlainError ("Hue API errors: " +:+ join_descriptions (errors response))
      end
  | Rejected (AxiosError m c st) => handleApiError m c st
  | Rejected e => e
  end.

(** An answer to the PUT of [recallScene] that makes it reject: an
    error envelope or a failed exchange; and the error it rejects with. *)
Definition recall_fails (reply : Settled (HueResourceResponse HueScene)) : Prop :=
  match reply with
  | Fulfilled response => errors response <> []
  | Rejected _ => True
  end.

Definition recallScene_error (reply : Settled (HueResourceResponse HueScene)) : JsError :=
  match reply with
  | Fulfilled response =>
      PlainError ("Hue API errors: " +:+ join_descriptions (errors response))
  | Rejected (AxiosError m c st) => handleApiError m c st
  | Rejected e => e
  end.

(** A world of the larger object seen as a world of its part, and a
    world of the part put back into the frame of the larger object. *)
Definition view {Sig S T : Type} (get : T -> S) (w : World Sig T) : World Sig S :=
  {| this := get (this w); clock := clock w; trace := trace w |}.

Definition put_back {Sig S T : Type} (set : S -> T -> T) (frame : T) (w : World Sig S)
    : World Sig T :=
  {| this := set (this w) frame; clock := clock w; trace := trace w |}.

Definition zoom_susp {Sig : Type} {Ans : Sig -> Type} {S T A : Type}
    (get : T -> S) (set : S -> T -> T) (r : Susp Sig Ans S A) : Susp Sig Ans T A :=
  match r with
  | Finished x => Finished x
  | Pending c k => Pending c (fun x => zoom get set (k x))
  end.

(** The events of [startPolling] before its initial poll. *)
Definition start_events (interval : Z) : list (Event ApiCall) :=
  (if decide (MIN_INTERVAL <= interval <= MAX_INTERVAL)
   then []
   else [Did (log_interval_corrected interval (validInterval_of interval))])
  ++ [Did (log_polling_started (validInterval_of interval))].

(** * Properties *)

(** ** Helper lemmas *)

Section RunLemmas.
Context {Sig : Type} {Ans : Sig -> Type} {S : Type}.
Implicit Types w : World Sig S.

Lemma requests_app (t1 t2 : list (Event Sig)) :
  requests (t1 ++ t2) = requests t1 ++ requests t2.
Proof. unfold requests. apply omap_app. Qed.

Lemma broadcasts_app (t1 t2 : list (Event Sig)) :
  broadcasts (t1 ++ t2) = broadcasts t1 ++ broadcasts t2.
Proof. unfold broadcasts. apply omap_app. Qed.
End RunLemmas.

(** ** Running composed programs *)

Section RunSettle.
Context {Sig : Type} {Ans : Sig -> Type} {S : Type}.

(** [settle p f] runs [p]; when [p] completes it goes on with [f],
    when [p] is suspended, [f] waits behind the continuation. *)
Lemma run_settle {A B} (p : async Sig Ans S A) (f : Settled A -> async Sig Ans S B)
    (w : World Sig S) :
  run (settle p f) w
  = match run p w with
    | (w', Finished x) => run (f x) w'
    | (w', Pending r k) => (w', Pending r (fun x => settle (k x) f))
    end.
Proof.
  revert w. induction p as [a|e|k IH|s k IH|k IH|e k IH|r k IH]; intros w; simpl; auto.
Qed.

Lemma run_bind_finished {A B} (p : async Sig Ans S A) (f : A -> async Sig Ans S B)
    (w w' : World Sig S) (a : A) :
  run p w = (w', Finished (Fulfilled a)) ->
  run (bind p f) w = run (f a) w'.
Proof. intros Hp. unfold bind. rewrite run_settle, Hp. reflexivity. Qed.
End RunSettle.

(** ** The accessory: what each synchronous stretch of [setOn] does *)

Section SetOnSteps.
Variable sceneConfig : SceneConfig.
Variable api : HueApiClient.
Variable config : HueTransitionsPlatformConfig.
Implicit Types w : World ApiCall HueSceneAccessory.

(** While an activation is in flight, [setOn] only logs. *)
Lemma setOn_busy w value :
  isActivating (this w) = true ->
  run (setOn sceneConfig api config value) w
  = (record (Did (log_ignored sceneConfig)) w, Finished (Fulfilled tt)).
Proof. intros Hbusy. unfold setOn. simpl. rewrite Hbusy. reflexivity. Qed.

(** Otherwise [setOn(true)] sets the flag, logs, calls [recallScene]
    and is suspended on it. *)
Lemma setOn_true_start w :
  isActivating (this w) = false ->
  exists k : Settled unit -> task HueSceneAccessory unit,
    run (setOn sceneConfig api config true) w
    = (record (Requested (recall_call sceneConfig api))
         (record (Did (log_activating sceneConfig)) (with_this (set_isActivating true (this w)) w)),
       Pending (recall_call sceneConfig api) k)
    /\ (forall w',
          run (k (Fulfilled tt)) w'
          = (record (Did (log_activated sceneConfig))
               (with_this {| isActivating := false; lastActivated := Some (clock w') |} w'),
             Finished (Fulfilled tt)))
    /\ (forall e w',
          run (k (Rejected e)) w'
          = (with_this (set_isActivating false (this w'))
               (record (Did (SetTimeout (UpdateOnLater false) 100))
                  (record (Did (log_failed sceneConfig e)) w')),
             Finished (Rejected (HapStatusError SERVICE_COMMUNICATION_FAILURE)))).
Proof.
  intros Hidle. unfold setOn. simpl. rewrite Hidle. simpl.
  eexists. split; [reflexivity|]. split; intros; reflexivity.
Qed.

(** [setOn(false)] with no activation in flight. *)
Lemma setOn_false_idle w :
  isActivating (this w) = false ->
  run (setOn sceneConfig api config false) w
  = (let w1 := with_this (set_lastActivated None (this w)) w in
     let w2 := if truthy (debug config)
               then record (Did (log_turned_off sceneConfig)) w1
               else w1 in
     with_this (set_isActivating false (this w2)) w2,
     Finished (Fulfilled tt)).
Proof.
  intros Hidle. unfold setOn. simpl. rewrite Hidle. simpl.
  destruct (truthy (debug config)); reflexivity.
Qed.
End SetOnSteps.

(** ** What the client sends for a recall *)

Lemma recall_request_positive (ms : Z) :
  0 < ms ->
  recall_request (Some ms)
  = {| recall := {| action := action_active; duration := Some ms |} |}.
Proof.
  intros Hpos. unfold recall_request.
  destruct (0 <? ms) eqn:E; [reflexivity | apply Z.ltb_ge in E; lia].
Qed.

Lemma recall_request_omitted (transitionMs : option Z) :
  (forall ms, transitionMs = Some ms -> ms <= 0) ->
  recall_request transitionMs
  = {| recall := {| action := action_active; duration := None |} |}.
Proof.
  intros Hno. unfold recall_request. destruct transitionMs as [ms|]; [|reflexivity].
  destruct (0 <? ms) eqn:E; [|reflexivity].
  apply Z.ltb_lt in E. specialize (Hno ms eq_refl). lia.
Qed.

(** [setOn(true)], linked with the client, is suspended on the PUT. *)
Lemma setOn_true_linked_start (sceneConfig : SceneConfig) (api : HueApiClient)
    (config : HueTransitionsPlatformConfig) (w : World HttpReq HueSceneAccessory) :
  isActivating (this w) = false ->
  let put := ClientPutScene api ("/resource/scene/" +:+ cfg_id sceneConfig)
               (recall_request (Some (cfg_transitionDuration sceneConfig * 60 * 1000))) in
  exists k : Settled (HueResourceResponse HueScene) -> http HueSceneAccessory unit,
    run (link (setOn sceneConfig api config true)) w
    = (record (Requested put)
         (record (Did (log_activating sceneConfig))
            (with_this (set_isActivating true (this w)) w)),
       Pending put k).
Proof.
  intros Hidle put. unfold setOn. simpl. rewrite Hidle. simpl.
  eexists. reflexivity.
Qed.

(** C1. For a scene configured with a transition of [d] minutes, [d] in
    [1, 60], a [setOn(true)] that proceeds to activation calls
    [recallScene] with [d * 60000] milliseconds, and the body of the
    PUT request that results has [recall.duration = d * 60000]. *)
Theorem setOn_recalls_with_duration_in_ms
    (sceneConfig : SceneConfig) (api : HueApiClient)
    (config : HueTransitionsPlatformConfig) (d : Z)
    (w : World ApiCall HueSceneAccessory) (wh : World HttpReq HueSceneAccessory) :
  cfg_transitionDuration sceneConfig = d ->
  1 <= d <= 60 ->
  isActivating (this w) = false ->
  isActivating (this wh) = false ->
  (exists k : Settled unit -> task HueSceneAccessory unit,
     let call := Call_recallScene api (cfg_id sceneConfig) (Some (d * 60000)) in
     (run (setOn sceneConfig api config true) w).2 = Pending call k
     /\ requests (trace (run (setOn sceneConfig api config true) w).1)
        = requests (trace w) ++ [call])
  /\ (exists body (k : Settled (HueResourceResponse HueScene) -> http HueSceneAccessory unit),
        let put := ClientPutScene api ("/resource/scene/" +:+ cfg_id sceneConfig) body in
        (run (link (setOn sceneConfig api config true)) wh).2 = Pending put k
        /\ requests (trace (run (link (setOn sceneConfig api config true)) wh).1)
           = requests (trace wh) ++ [put]
        /\ action (recall body) = action_active
        /\ duration (recall body) = Some (d * 60000)).
Proof.
  intros Hdur Hd Hidle Hidle'. split.
  - destruct (setOn_true_start sceneConfig api config w Hidle) as (k & Hrun & _).
    unfold recall_call in Hrun. rewrite Hdur in Hrun.
    replace (d * 60 * 1000) with (d * 60000) in Hrun by lia.
    exists k. rewrite Hrun. simpl. split; [reflexivity|].
    rewrite !requests_app. simpl. rewrite app_nil_r. reflexivity.
  - destruct (setOn_true_linked_start sceneConfig api config wh Hidle') as (k & Hrun).
    rewrite Hdur in Hrun.
    rewrite recall_request_positive in Hrun by lia.
    replace (d * 60 * 1000) with (d * 60000) in Hrun by lia.
    do 2 eexists. rewrite Hrun. simpl. split; [reflexivity|].
    rewrite !requests_app. simpl. rewrite app_nil_r. auto.
Qed.

Lemma setOn_recalls_with_duration_in_ms_witness :
  (1 <= 30 <= 60)
  /\ exists body (k : Settled (HueResourceResponse HueScene) -> http HueSceneAccessory unit),
       (run (link (setOn example_scene example_api example_config true))
          (fresh_world new_HueSceneAccessory)).2
       = Pending (ClientPutScene example_api "/resource/scene/scene-1" body) k
       /\ duration (recall body) = Some 1800000.
Proof.
  split; [lia|].
  destruct (setOn_recalls_with_duration_in_ms example_scene example_api example_config 30
              (fresh_world new_HueSceneAccessory) (fresh_world new_HueSceneAccessory))
    as [_ (body & k & Hput & _ & _ & Hduration)];
    [reflexivity | lia | reflexivity | reflexivity |].
  exists body, k. split; [exact Hput | exact Hduration].
Defined.

(** ** [getOn] *)

Section GetOnSteps.
Variable sceneConfig : SceneConfig.
Variable api : HueApiClient.
Variable config : HueTransitionsPlatformConfig.
Implicit Types w : World ApiCall HueSceneAccessory.

(** Outside the window [getOn] asks the bridge, and answers with what
    the bridge reports, or [false] when the fetch fails. *)
Lemma getOn_fetches w :
  outside_window w ->
  exists k : Settled HueScene -> task HueSceneAccessory bool,
    run (getOn sceneConfig api config) w
    = (record (Requested (Call_getScene api (cfg_id sceneConfig))) w,
       Pending (Call_getScene api (cfg_id sceneConfig)) k)
    /\ (forall scene w',
          run (k (Fulfilled scene)) w'
          = (if truthy (debug config) then record (Did (log_status sceneConfig scene)) w' else w',
             Finished (Fulfilled (isActive_of scene))))
    /\ (forall e w',
          run (k (Rejected e)) w'
          = (record (Did (log_fetch_failed sceneConfig e)) w',
             Finished (Fulfilled false))).
Proof.
  unfold outside_window, getOn. intros Hout. simpl.
  destruct (lastActivated (this w)) as [t0|]; simpl.
  - destruct (clock w - t0 <? 30000) eqn:E; [apply Z.ltb_lt in E; lia|].
    eexists. split; [reflexivity|]. split; intros; [|reflexivity].
    simpl. destruct (truthy (debug config)); reflexivity.
  - eexists. split; [reflexivity|]. split; intros; [|reflexivity].
    simpl. destruct (truthy (debug config)); reflexivity.
Qed.
End GetOnSteps.

(** C2. When [lastActivated] is set and [now - lastActivated < 30000],
    [getOn] returns [true] and does nothing else: no call on the
    client, whatever the bridge would report. *)
Theorem getOn_true_within_window
    (sceneConfig : SceneConfig) (api : HueApiClient)
    (config : HueTransitionsPlatformConfig)
    (w : World ApiCall HueSceneAccessory) (t0 : Z) :
  lastActivated (this w) = Some t0 ->
  clock w - t0 < 30000 ->
  run (getOn sceneConfig api config) w = (w, Finished (Fulfilled true))
  /\ forall wh : World HttpReq HueSceneAccessory,
       lastActivated (this wh) = Some t0 ->
       clock wh - t0 < 30000 ->
       run (link (getOn sceneConfig api config)) wh = (wh, Finished (Fulfilled true)).
Proof.
  intros Hlast Hrecent. split.
  - unfold getOn. simpl. rewrite Hlast. simpl.
    destruct (clock w - t0 <? 30000) eqn:E; [reflexivity | apply Z.ltb_ge in E; lia].
  - intros wh Hlast' Hrecent'. unfold getOn. simpl. rewrite Hlast'. simpl.
    destruct (clock wh - t0 <? 30000) eqn:E; [reflexivity | apply Z.ltb_ge in E; lia].
Qed.

Lemma getOn_true_within_window_witness :
  (1700000000000 - 1699999990000 < 30000)
  /\ run (getOn example_scene example_api example_config)
       (fresh_world {| isActivating := false; lastActivated := Some 1699999990000 |})
     = (fresh_world {| isActivating := false; lastActivated := Some 1699999990000 |},
        Finished (Fulfilled true)).
Proof.
  split; [lia|].
  apply (getOn_true_within_window example_scene example_api example_config
           (fresh_world {| isActivating := false; lastActivated := Some 1699999990000 |})
           1699999990000); [reflexivity | simpl; lia].
Defined.

(** ** Concurrent and failing activations *)

(** C3. Of two near-simultaneous [setOn(true)] on one accessory, the
    second arriving while the first's activation is in flight, only the
    first calls [recallScene]: the second returns at once, with no call
    on the client and no change of state, and however the first call
    settles the accessory has made exactly one [recallScene] call. *)
Theorem concurrent_setOn_recalls_once
    (sceneConfig : SceneConfig) (api : HueApiClient)
    (config : HueTransitionsPlatformConfig)
    (w0 : World ApiCall HueSceneAccessory) :
  isActivating (this w0) = false ->
  exists (w1 : World ApiCall HueSceneAccessory)
         (k : Settled unit -> task HueSceneAccessory unit),
    run (setOn sceneConfig api config true) w0
    = (w1, Pending (recall_call sceneConfig api) k)
    /\ isActivating (this w1) = true
    /\ requests (trace w1) = requests (trace w0) ++ [recall_call sceneConfig api]
    /\ (exists w2,
          run (setOn sceneConfig api config true) w1 = (w2, Finished (Fulfilled tt))
          /\ this w2 = this w1
          /\ requests (trace w2) = requests (trace w1)
          /\ forall (reply : Settled unit) (t : Z),
               requests (trace (run (k reply) (at_time t w2)).1)
               = requests (trace w0) ++ [recall_call sceneConfig api]).
Proof.
  intros Hidle.
  destruct (setOn_true_start sceneConfig api config w0 Hidle) as (k & Hrun & Hok & Herr).
  eexists _, k. split; [exact Hrun|].
  split; [reflexivity|].
  split; [simpl; rewrite !requests_app; simpl; rewrite app_nil_r; reflexivity|].
  eexists. split; [apply setOn_busy; reflexivity|].
  split; [reflexivity|].
  split; [simpl; rewrite !requests_app; simpl; rewrite !app_nil_r; reflexivity|].
  intros [[]|e] t.
  - rewrite Hok. simpl. rewrite !requests_app. simpl. rewrite !app_nil_r. reflexivity.
  - rewrite Herr. simpl. rewrite !requests_app. simpl. rewrite !app_nil_r. reflexivity.
Qed.

Lemma concurrent_setOn_recalls_once_witness :
  exists (w1 : World ApiCall HueSceneAccessory)
         (k : Settled unit -> task HueSceneAccessory unit),
    run (setOn example_scene example_api example_config true)
      (fresh_world new_HueSceneAccessory)
    = (w1, Pending (recall_call example_scene example_api) k)
    /\ isActivating (this w1) = true
    /\ exists w2,
         run (setOn example_scene example_api example_config true) w1
         = (w2, Finished (Fulfilled tt))
         /\ requests (trace w2) = [recall_call example_scene example_api].
Proof.
  destruct (concurrent_setOn_recalls_once example_scene example_api example_config
              (fresh_world new_HueSceneAccessory) eq_refl)
    as (w1 & k & Hrun & Hbusy & Hreq & w2 & Hrun2 & _ & Hreq2 & _).
  exists w1, k. split; [exact Hrun|]. split; [exact Hbusy|].
  exists w2. split; [exact Hrun2|]. rewrite Hreq2. exact Hreq.
Defined.

(** C6. When [recallScene] rejects, [setOn(true)] throws the
    communication-failure status to the registry, has scheduled, 100 ms
    later, an update of the switch to the opposite of the requested
    value, leaves [lastActivated] as it was and [isActivating] false; a
    [setOn(true)] after it calls [recallScene] again. *)
Theorem setOn_recall_rejected
    (sceneConfig : SceneConfig) (api : HueApiClient)
    (config : HueTransitionsPlatformConfig)
    (w0 : World ApiCall HueSceneAccessory) (e : JsError) (t : Z) :
  isActivating (this w0) = false ->
  exists (w1 : World ApiCall HueSceneAccessory)
         (k : Settled unit -> task HueSceneAccessory unit),
    run (setOn sceneConfig api config true) w0
    = (w1, Pending (recall_call sceneConfig api) k)
    /\ exists w2,
         run (k (Rejected e)) (at_time t w1)
         = (w2, Finished (Rejected (HapStatusError SERVICE_COMMUNICATION_FAILURE)))
         /\ trace w2 = trace w1 ++ [Did (log_failed sceneConfig e);
                                    Did (SetTimeout (UpdateOnLater (negb true)) 100)]
         /\ run (fire (UpdateOnLater (negb true))) w2
            = (record (Did (UpdateCharacteristicOn false)) w2, Finished (Fulfilled tt))
         /\ lastActivated (this w2) = lastActivated (this w0)
         /\ isActivating (this w2) = false
         /\ exists (w3 : World ApiCall HueSceneAccessory)
                   (k' : Settled unit -> task HueSceneAccessory unit),
              run (setOn sceneConfig api config true) w2
              = (w3, Pending (recall_call sceneConfig api) k')
              /\ requests (trace w3)
                 = requests (trace w2) ++ [recall_call sceneConfig api].
Proof.
  intros Hidle.
  destruct (setOn_true_start sceneConfig api config w0 Hidle) as (k & Hrun & _ & Herr).
  eexists _, k. split; [exact Hrun|].
  eexists. split; [apply Herr|].
  split; [simpl; rewrite <- !app_assoc; reflexivity|].
  split; [reflexivity|].
  split; [reflexivity|].
  split; [reflexivity|].
  match goal with
  | |- context [run _ ?w2] =>
      destruct (setOn_true_start sceneConfig api config w2 eq_refl) as (k' & Hrun' & _)
  end.
  eexists _, k'. split; [exact Hrun'|].
  simpl. rewrite !requests_app. simpl. rewrite !app_nil_r. reflexivity.
Qed.

Lemma setOn_recall_rejected_witness :
  exists (w1 : World ApiCall HueSceneAccessory)
         (k : Settled unit -> task HueSceneAccessory unit),
    run (setOn example_scene example_api example_config true)
      (fresh_world new_HueSceneAccessory)
    = (w1, Pending (recall_call example_scene example_api) k)
    /\ exists w2,
         run (k (Rejected (PlainError "API error"))) (at_time 1700000000500 w1)
         = (w2, Finished (Rejected (HapStatusError SERVICE_COMMUNICATION_FAILURE)))
         /\ isActivating (this w2) = false.
Proof.
  destruct (setOn_recall_rejected example_scene example_api example_config
              (fresh_world new_HueSceneAccessory) (PlainError "API error")
              1700000000500 eq_refl)
    as (w1 & k & Hrun & w2 & Hrun2 & _ & _ & _ & Hidle & _).
  exists w1, k. split; [exact Hrun|]. exists w2. split; [exact Hrun2 | exact Hidle].
Defined.

(** C8. [setOn(false)] never calls the client, in flight or not, and
    makes no HTTP request when linked with the client; with no
    activation in flight it clears [lastActivated]. *)
Theorem setOn_false_no_network
    (sceneConfig : SceneConfig) (api : HueApiClient)
    (config : HueTransitionsPlatformConfig)
    (w : World ApiCall HueSceneAccessory) (wh : World HttpReq HueSceneAccessory) :
  (exists w',
     run (setOn sceneConfig api config false) w = (w', Finished (Fulfilled tt))
     /\ requests (trace w') = requests (trace w)
     /\ (isActivating (this w) = false ->
         lastActivated (this w') = None /\ isActivating (this w') = false))
  /\ (exists wh',
        run (link (setOn sceneConfig api config false)) wh = (wh', Finished (Fulfilled tt))
        /\ requests (trace wh') = requests (trace wh)).
Proof.
  split.
  - destruct (isActivating (this w)) eqn:Hflag.
    + eexists. split; [apply setOn_busy; exact Hflag|].
      split; [|discriminate].
      simpl. rewrite requests_app. simpl. apply app_nil_r.
    + eexists. split; [apply setOn_false_idle; exact Hflag|].
      split; [|intros _; destruct (truthy (debug config)); split; reflexivity].
      destruct (truthy (debug config)); simpl; [|reflexivity].
      rewrite requests_app. simpl. apply app_nil_r.
  - unfold setOn. simpl.
    destruct (isActivating (this wh)); simpl.
    + eexists. split; [reflexivity|].
      simpl. rewrite requests_app. simpl. apply app_nil_r.
    + destruct (truthy (debug config)); simpl; eexists; (split; [reflexivity|]); simpl;
        [rewrite requests_app; simpl; apply app_nil_r | reflexivity].
Qed.

Lemma setOn_false_no_network_witness :
  exists w',
    run (setOn example_scene example_api example_config false)
      (fresh_world {| isActivating := false; lastActivated := Some 1699999990000 |})
    = (w', Finished (Fulfilled tt))
    /\ requests (trace w') = []
    /\ lastActivated (this w') = None.
Proof.
  destruct (setOn_false_no_network example_scene example_api example_config
              (fresh_world {| isActivating := false; lastActivated := Some 1699999990000 |})
              (fresh_world new_HueSceneAccessory))
    as [(w' & Hrun & Hreq & Hclear) _].
  exists w'. split; [exact Hrun|]. split; [exact Hreq|].
  apply Hclear. reflexivity.
Defined.

(** ** The polling loop *)

Lemma broadcasts_emit_events {Sig : Type} (bs : list (string * bool)) :
  broadcasts (emit_event (Sig:=Sig) <$> bs) = bs.
Proof.
  induction bs as [|[i b] bs IH]; [reflexivity|].
  change (broadcasts (emit_event (Sig:=Sig) <$> (i, b) :: bs))
    with ((i, b) :: broadcasts (emit_event (Sig:=Sig) <$> bs)).
  rewrite IH. reflexivity.
Qed.

Lemma requests_emit_events {Sig : Type} (bs : list (string * bool)) :
  requests (emit_event (Sig:=Sig) <$> bs) = [].
Proof. induction bs as [|[i b] bs IH]; [reflexivity|]. exact IH. Qed.

Lemma loop_broadcasts_cons (sceneMap : gmap string HueScene) (sc : SceneConfig)
    (l : list SceneConfig) :
  loop_broadcasts sceneMap (sc :: l)
  = match sceneMap !! cfg_id sc with
    | Some s => (cfg_id sc, isActive_of s) :: loop_broadcasts sceneMap l
    | None => loop_broadcasts sceneMap l
    end.
Proof.
  unfold loop_broadcasts. cbn [omap list_omap].
  destruct (sceneMap !! cfg_id sc); reflexivity.
Qed.

Lemma run_poll_loop (sceneMap : gmap string HueScene) (l : list SceneConfig)
    (w : World ApiCall HueTransitionsPlatform) :
  run (for_of l (poll_scene sceneMap)) w
  = (extend (emit_event <$> loop_broadcasts sceneMap l) w, Finished (Fulfilled tt)).
Proof.
  revert w. induction l as [|sc l IH]; intros w.
  - simpl. unfold extend. rewrite app_nil_r. destruct w; reflexivity.
  - rewrite loop_broadcasts_cons. cbn [for_of]. unfold poll_scene at 1.
    destruct (sceneMap !! cfg_id sc) as [scene|]; simpl.
    + rewrite IH. unfold extend, record. simpl.
      rewrite <- app_assoc. reflexivity.
    + rewrite IH. reflexivity.
Qed.

Section PollSteps.
Variable config : HueTransitionsPlatformConfig.
Implicit Types w : World ApiCall HueTransitionsPlatform.

(** A tick that finds the busy flag set, or no client, does nothing. *)
Lemma poll_skipped w :
  isPolling (this w) = true \/ apiClient (this w) = None ->
  run (pollSceneStatus config) w = (w, Finished (Fulfilled tt)).
Proof.
  intros Hskip. unfold pollSceneStatus. simpl.
  destruct (isPolling (this w)); [reflexivity|].
  destruct Hskip as [Hbusy|Hnone]; [discriminate|].
  rewrite Hnone. reflexivity.
Qed.

(** Otherwise it sets the flag and is suspended on [getScenes]; when
    that settles it broadcasts, or logs the failure, and clears the
    flag. *)
Lemma poll_start w (client : HueApiClient) :
  isPolling (this w) = false ->
  apiClient (this w) = Some client ->
  exists k : Settled (list HueScene) -> task HueTransitionsPlatform unit,
    run (pollSceneStatus config) w
    = (record (Requested (Call_getScenes client))
         (with_this (set_isPolling true (this w)) w),
       Pending (Call_getScenes client) k)
    /\ (forall bridge w',
          run (k (Fulfilled bridge)) w'
          = (with_this (set_isPolling false (this w'))
               (extend ((emit_event <$> loop_broadcasts (bridge_map bridge) (scenes config))
                        ++ (if truthy (debug config)
                            then [Did (Log LDebug "Scene status poll completed")]
                            else []))
                  w'),
             Finished (Fulfilled tt)))
    /\ (forall e w',
          run (k (Rejected e)) w'
          = (with_this (set_isPolling false (this w'))
               (record (Did (log_poll_failed e)) w'),
             Finished (Fulfilled tt))).
Proof.
  intros Hidle Hclient. unfold pollSceneStatus. simpl.
  rewrite Hidle, Hclient. simpl. rewrite Hclient. simpl.
  eexists. split; [reflexivity|]. split; [|intros; reflexivity].
  intros bridge w'. simpl.
  rewrite !run_settle.
  unfold bind. rewrite run_settle. fold (bridge_map bridge).
  rewrite run_poll_loop.
  unfold when, extend, record, with_this.
  destruct (truthy (debug config)); simpl.
  - unfold with_this, record. simpl. rewrite <- app_assoc. reflexivity.
  - rewrite app_nil_r. reflexivity.
Qed.
End PollSteps.

(** ** The map of the bridge's scenes *)

Lemma new_Map_list_to_map (entries : list (string * HueScene)) :
  new_Map entries = list_to_map (reverse entries).
Proof.
  unfold new_Map, list_to_map.
  generalize (∅ : gmap string HueScene).
  induction entries as [|e entries IH]; intros m; [reflexivity|].
  rewrite reverse_cons, foldr_app. simpl. apply IH.
Qed.

(** The map has an id exactly when the bridge's answer has a scene with
    that id. *)
Lemma bridge_map_present (bridge : list HueScene) (i : string) :
  is_Some (bridge_map bridge !! i) <-> i ∈ scene_id <$> bridge.
Proof.
  unfold bridge_map. rewrite new_Map_list_to_map.
  rewrite <- not_eq_None_Some, <- not_elem_of_list_to_map.
  rewrite fmap_reverse, elem_of_reverse, <- list_fmap_compose.
  split; [apply dec_stable | auto].
Qed.

(** What the map has under an id is a scene of the bridge's answer with
    that id. *)
Lemma bridge_map_sound (bridge : list HueScene) (i : string) (s : HueScene) :
  bridge_map bridge !! i = Some s -> s ∈ bridge /\ scene_id s = i.
Proof.
  unfold bridge_map. rewrite new_Map_list_to_map. intros Hlook.
  apply elem_of_list_to_map_2 in Hlook.
  apply elem_of_reverse, list_elem_of_fmap in Hlook as (s' & Heq & Hin).
  inversion Heq; subst. auto.
Qed.

(** The ids of the broadcasts: the configured scenes that the bridge's
    answer has, in the order of the configuration. *)
Lemma loop_broadcasts_ids (bridge : list HueScene) (l : list SceneConfig) :
  (loop_broadcasts (bridge_map bridge) l).*1
  = cfg_id <$> filter (fun sc => cfg_id sc ∈ scene_id <$> bridge) l.
Proof.
  induction l as [|sc l IH]; [reflexivity|].
  rewrite loop_broadcasts_cons, filter_cons.
  destruct (bridge_map bridge !! cfg_id sc) as [s|] eqn:Hlook.
  - rewrite decide_True by (apply bridge_map_present; eauto).
    simpl. f_equal. exact IH.
  - rewrite decide_False; [exact IH|].
    intros Hin. apply bridge_map_present in Hin. rewrite Hlook in Hin.
    destruct Hin; discriminate.
Qed.

Lemma loop_broadcasts_sound (bridge : list HueScene) (l : list SceneConfig)
    (i : string) (b : bool) :
  (i, b) ∈ loop_broadcasts (bridge_map bridge) l ->
  exists sc s, sc ∈ l /\ cfg_id sc = i /\ bridge_map bridge !! i = Some s
               /\ isActive_of s = b.
Proof.
  unfold loop_broadcasts. rewrite list_elem_of_omap.
  intros (sc & Hin & Hsome).
  destruct (bridge_map bridge !! cfg_id sc) as [s|] eqn:Hlook; [|discriminate].
  simpl in Hsome. inversion Hsome; subst.
  exists sc, s. auto.
Qed.

Lemma loop_broadcasts_complete (bridge : list HueScene) (l : list SceneConfig)
    (sc : SceneConfig) (s : HueScene) :
  sc ∈ l ->
  bridge_map bridge !! cfg_id sc = Some s ->
  (cfg_id sc, isActive_of s) ∈ loop_broadcasts (bridge_map bridge) l.
Proof.
  intros Hin Hlook. unfold loop_broadcasts. rewrite list_elem_of_omap.
  exists sc. split; [exact Hin|]. rewrite Hlook. reflexivity.
Qed.

(** ** Poll ticks *)

(** C4. A poll tick that starts while the previous tick's [getScenes]
    is unresolved, so with [isPolling] set, is skipped: no [getScenes]
    call, no broadcast, nothing at all. *)
Theorem overlapping_poll_tick_skipped
    (config : HueTransitionsPlatformConfig) (client : HueApiClient)
    (w0 : World ApiCall HueTransitionsPlatform) :
  isPolling (this w0) = false ->
  apiClient (this w0) = Some client ->
  exists (w1 : World ApiCall HueTransitionsPlatform)
         (k : Settled (list HueScene) -> task HueTransitionsPlatform unit),
    run (pollSceneStatus config) w0 = (w1, Pending (Call_getScenes client) k)
    /\ isPolling (this w1) = true
    /\ requests (trace w1) = requests (trace w0) ++ [Call_getScenes client]
    /\ forall w : World ApiCall HueTransitionsPlatform,
         isPolling (this w) = true ->
         run (pollSceneStatus config) w = (w, Finished (Fulfilled tt)).
Proof.
  intros Hidle Hclient.
  destruct (poll_start config w0 client Hidle Hclient) as (k & Hrun & _).
  eexists _, k. split; [exact Hrun|].
  split; [reflexivity|].
  split; [simpl; rewrite requests_app; reflexivity|].
  intros w Hbusy. apply poll_skipped. left. exact Hbusy.
Qed.

Lemma overlapping_poll_tick_skipped_witness :
  exists (w1 : World ApiCall HueTransitionsPlatform)
         (k : Settled (list HueScene) -> task HueTransitionsPlatform unit),
    run (pollSceneStatus example_config) (fresh_world ready_platform)
    = (w1, Pending (Call_getScenes example_api) k)
    /\ run (pollSceneStatus example_config) w1 = (w1, Finished (Fulfilled tt)).
Proof.
  destruct (overlapping_poll_tick_skipped example_config example_api
              (fresh_world ready_platform) eq_refl eq_refl)
    as (w1 & k & Hrun & Hbusy & _ & Hskip).
  exists w1, k. split; [exact Hrun|]. apply Hskip. exact Hbusy.
Defined.



(** C5, as amended. Within one poll tick the broadcasts are emitted in
    the order of the configured scenes, one for every configured scene
    whose id the bridge's [getScenes] answer has, each with the status
    of a scene of that answer with that id. *)
Theorem poll_broadcasts_in_config_order
    (config : HueTransitionsPlatformConfig) (client : HueApiClient)
    (w0 : World ApiCall HueTransitionsPlatform) (bridge : list HueScene) (t : Z) :
  isPolling (this w0) = false ->
  apiClient (this w0) = Some client ->
  exists (w1 : World ApiCall HueTransitionsPlatform)
         (k : Settled (list HueScene) -> task HueTransitionsPlatform unit)
         (bs : list (string * bool)),
    run (pollSceneStatus config) w0 = (w1, Pending (Call_getScenes client) k)
    /\ broadcasts (trace (run (k (Fulfilled bridge)) (at_time t w1)).1)
       = broadcasts (trace w0) ++ bs
    /\ bs.*1 = cfg_id <$> filter (fun sc => cfg_id sc ∈ scene_id <$> bridge) (scenes config)
    /\ forall i b, (i, b) ∈ bs ->
         exists s, s ∈ bridge /\ scene_id s = i /\ isActive_of s = b.
Proof.
  intros Hidle Hclient.
  destruct (poll_start config w0 client Hidle Hclient) as (k & Hrun & Hok & _).
  eexists _, k, (loop_broadcasts (bridge_map bridge) (scenes config)).
  split; [exact Hrun|].
  split.
  - rewrite Hok. simpl. rewrite !broadcasts_app, broadcasts_emit_events. simpl.
    rewrite app_nil_r.
    destruct (truthy (debug config)); simpl; rewrite app_nil_r; reflexivity.
  - split; [apply loop_broadcasts_ids|].
    intros i b Hin.
    apply loop_broadcasts_sound in Hin as (sc & s & _ & _ & Hlook & Hactive).
    apply bridge_map_sound in Hlook as [Hin Hid].
    exists s. auto.
Qed.

Lemma poll_broadcasts_in_config_order_witness :
  exists (w1 : World ApiCall HueTransitionsPlatform)
         (k : Settled (list HueScene) -> task HueTransitionsPlatform unit)
         (bs : list (string * bool)),
    run (pollSceneStatus config_AB) (fresh_world ready_platform)
    = (w1, Pending (Call_getScenes example_api) k)
    /\ broadcasts (trace (run (k (Fulfilled bridge_BA)) (at_time 1700000000500 w1)).1) = bs
    /\ bs.*1 = ["A"; "B"].
Proof.
  destruct (poll_broadcasts_in_config_order config_AB example_api
              (fresh_world ready_platform) bridge_BA 1700000000500 eq_refl eq_refl)
    as (w1 & k & bs & Hrun & Hbs & Hids & _).
  exists w1, k, bs. split; [exact Hrun|]. split; [exact Hbs|].
  rewrite Hids. vm_compute. reflexivity.
Defined.

(** C5, as stated, fails: with scenes A, B configured in that order and
    a bridge that returns B before A, the tick broadcasts A and then B,
    not B and then A. *)
Lemma poll_broadcasts_not_in_bridge_order :
  exists (w1 : World ApiCall HueTransitionsPlatform)
         (k : Settled (list HueScene) -> task HueTransitionsPlatform unit),
    run (pollSceneStatus config_AB) (fresh_world ready_platform)
    = (w1, Pending (Call_getScenes example_api) k)
    /\ broadcasts (trace (run (k (Fulfilled bridge_BA)) w1).1)
       = [("A", false); ("B", true)]
    /\ bridge_order_broadcasts config_AB bridge_BA = [("B", true); ("A", false)]
    /\ broadcasts (trace (run (k (Fulfilled bridge_BA)) w1).1)
       <> bridge_order_broadcasts config_AB bridge_BA.
Proof.
  do 2 eexists. split; [reflexivity|].
  split; [vm_compute; reflexivity|].
  split; [vm_compute; reflexivity|].
  vm_compute. discriminate.
Qed.

(** ** A scene without a [status] *)

Lemma isActive_of_absent (s : HueScene) :
  status s = None -> isActive_of s = false.
Proof. intros Habsent. unfold isActive_of, status_active. rewrite Habsent. reflexivity. Qed.

Lemma isActive_of_absent_as_inactive (s : HueScene) :
  isActive_of (absent_as_inactive s) = isActive_of s.
Proof.
  unfold absent_as_inactive, isActive_of, status_active.
  destruct (status s) eqn:E; [rewrite E|]; reflexivity.
Qed.

Lemma scene_id_absent_as_inactive (s : HueScene) :
  scene_id (absent_as_inactive s) = scene_id s.
Proof. unfold absent_as_inactive. destruct (status s); reflexivity. Qed.

Lemma bridge_map_absent_as_inactive (bridge : list HueScene) (i : string) :
  bridge_map (absent_as_inactive <$> bridge) !! i
  = absent_as_inactive <$> bridge_map bridge !! i.
Proof.
  unfold bridge_map. rewrite !new_Map_list_to_map.
  rewrite <- lookup_fmap, <- list_to_map_fmap, <- !fmap_reverse.
  rewrite <- !list_fmap_compose. do 2 f_equal.
  apply list_fmap_ext. intros _ s _. simpl.
  rewrite scene_id_absent_as_inactive. reflexivity.
Qed.

Lemma loop_broadcasts_absent_as_inactive (bridge : list HueScene) (l : list SceneConfig) :
  loop_broadcasts (bridge_map (absent_as_inactive <$> bridge)) l
  = loop_broadcasts (bridge_map bridge) l.
Proof.
  induction l as [|sc l IH]; [reflexivity|].
  rewrite !loop_broadcasts_cons, bridge_map_absent_as_inactive, IH.
  destruct (bridge_map bridge !! cfg_id sc) as [s|]; simpl; [|reflexivity].
  rewrite isActive_of_absent_as_inactive. reflexivity.
Qed.

(** When the bridge's answer has one scene with a given id, that is the
    scene the map has under the id. *)
Lemma bridge_map_unique (bridge : list HueScene) (s : HueScene) :
  s ∈ bridge ->
  (forall s', s' ∈ bridge -> scene_id s' = scene_id s -> s' = s) ->
  bridge_map bridge !! scene_id s = Some s.
Proof.
  intros Hin Huniq.
  destruct (bridge_map bridge !! scene_id s) as [s'|] eqn:Hlook.
  - apply bridge_map_sound in Hlook as [Hin' Hid]. f_equal. auto.
  - assert (is_Some (bridge_map bridge !! scene_id s)) as [x Hx].
    { apply bridge_map_present. apply list_elem_of_fmap. eauto. }
    congruence.
Qed.

(** C10. A scene of the bridge without a [status] is classified as
    inactive: outside the 30-second window [getOn] returns [false] for
    it, and a poll tick broadcasts [isActive = false] for it, in both
    cases just as for the same scene with the status [inactive]. *)
Theorem absent_status_is_inactive
    (sceneConfig : SceneConfig) (api : HueApiClient)
    (config : HueTransitionsPlatformConfig) (scene : HueScene)
    (w0 : World ApiCall HueSceneAccessory)
    (p0 : World ApiCall HueTransitionsPlatform) (bridge : list HueScene) :
  status scene = None ->
  outside_window w0 ->
  isPolling (this p0) = false ->
  apiClient (this p0) = Some api ->
  sceneConfig ∈ scenes config ->
  scene ∈ bridge ->
  scene_id scene = cfg_id sceneConfig ->
  (forall s', s' ∈ bridge -> scene_id s' = scene_id scene -> s' = scene) ->
  isActive_of scene = false
  /\ isActive_of (absent_as_inactive scene) = false
  /\ (exists (w1 : World ApiCall HueSceneAccessory)
             (k : Settled HueScene -> task HueSceneAccessory bool),
        run (getOn sceneConfig api config) w0
        = (w1, Pending (Call_getScene api (cfg_id sceneConfig)) k)
        /\ forall w,
             (run (k (Fulfilled scene)) w).2 = Finished (Fulfilled false)
             /\ (run (k (Fulfilled (absent_as_inactive scene))) w).2
                = Finished (Fulfilled false))
  /\ (exists (p1 : World ApiCall HueTransitionsPlatform)
             (k : Settled (list HueScene) -> task HueTransitionsPlatform unit),
        run (pollSceneStatus config) p0 = (p1, Pending (Call_getScenes api) k)
        /\ forall p, exists bs : list (string * bool),
             broadcasts (trace (run (k (Fulfilled bridge)) p).1)
             = broadcasts (trace p) ++ bs
             /\ (cfg_id sceneConfig, false) ∈ bs
             /\ ((cfg_id sceneConfig, true) ∉ bs)
             /\ broadcasts (trace (run (k (Fulfilled (absent_as_inactive <$> bridge))) p).1)
                = broadcasts (trace p) ++ bs).
Proof.
  intros Habsent Hout Hidle Hclient Hconf Hin Hid Huniq.
  pose proof (isActive_of_absent scene Habsent) as Hfalse.
  pose proof (bridge_map_unique bridge scene Hin Huniq) as Hlook.
  rewrite Hid in Hlook.
  split; [exact Hfalse|].
  split; [rewrite isActive_of_absent_as_inactive; exact Hfalse|].
  split.
  - destruct (getOn_fetches sceneConfig api config w0 Hout) as (k & Hrun & Hok & _).
    eexists _, k. split; [exact Hrun|].
    intros w. rewrite !Hok. simpl.
    rewrite isActive_of_absent_as_inactive, Hfalse. auto.
  - destruct (poll_start config p0 api Hidle Hclient) as (k & Hrun & Hok & _).
    eexists _, k. split; [exact Hrun|].
    intros p. exists (loop_broadcasts (bridge_map bridge) (scenes config)).
    rewrite !Hok. simpl.
    rewrite loop_broadcasts_absent_as_inactive.
    assert (forall tail : list (Event ApiCall),
              broadcasts tail = [] ->
              broadcasts (trace p ++ (emit_event <$> loop_broadcasts (bridge_map bridge)
                                                       (scenes config)) ++ tail)
              = broadcasts (trace p) ++ loop_broadcasts (bridge_map bridge) (scenes config))
      as Hnew.
    { intros tail Htail.
      rewrite !broadcasts_app, broadcasts_emit_events, Htail, app_nil_r. reflexivity. }
    assert (broadcasts (if truthy (debug config)
                        then [Did (Sig:=ApiCall) (Log LDebug "Scene status poll completed")]
                        else []) = []) as Htail
      by (destruct (truthy (debug config)); reflexivity).
    split; [apply Hnew, Htail|].
    split; [|split; [|apply Hnew, Htail]].
    + rewrite <- Hfalse. apply loop_broadcasts_complete; assumption.
    + intros Hbad.
      apply loop_broadcasts_sound in Hbad as (sc & s & _ & _ & Hlook' & Hactive).
      congruence.
Qed.

Lemma absent_status_is_inactive_witness :
  status scene_without_status = None
  /\ isActive_of scene_without_status = false
  /\ exists (p1 : World ApiCall HueTransitionsPlatform)
            (k : Settled (list HueScene) -> task HueTransitionsPlatform unit),
       run (pollSceneStatus example_config) (fresh_world ready_platform)
       = (p1, Pending (Call_getScenes example_api) k)
       /\ ("scene-1", false)
          ∈ broadcasts (trace (run (k (Fulfilled [scene_without_status])) p1).1).
Proof.
  split; [reflexivity|].
  destruct (absent_status_is_inactive example_scene example_api example_config
              scene_without_status (fresh_world new_HueSceneAccessory)
              (fresh_world ready_platform) [scene_without_status])
    as (Hfalse & _ & _ & p1 & k & Hrun & Hpoll).
  - reflexivity.
  - exact I.
  - reflexivity.
  - reflexivity.
  - apply list_elem_of_here.
  - apply list_elem_of_here.
  - reflexivity.
  - intros s' Hs' _. apply list_elem_of_singleton in Hs'. exact Hs'.
  - split; [exact Hfalse|]. exists p1, k. split; [exact Hrun|].
    destruct (Hpoll p1) as (bs & Hbs & Hin & _).
    rewrite Hbs. apply elem_of_app. right. exact Hin.
Defined.

(** ** [createApiKey] *)

Section CreateApiKey.
Context {S : Type}.
Variables bridgeIp appName deviceName : string.

(** [createApiKey] posts the device type and is suspended on the
    answer; what it does with each shape of answer. *)
Lemma createApiKey_steps (w : World HttpReq S) :
  exists k : Settled (list HueAuthResponse) -> http S string,
    run (createApiKey bridgeIp appName deviceName) w
    = (record (Requested (auth_post bridgeIp appName deviceName)) w, Pending (auth_post bridgeIp appName deviceName) k)
    /\ (forall result rest u us w',
          success result = Some (u :: us) ->
          run (k (Fulfilled (result :: rest))) w'
          = (w', Finished (Fulfilled (username u))))
    /\ (forall result rest e w',
          success result = None \/ success result = Some [] ->
          error result = Some e ->
          run (k (Fulfilled (result :: rest))) w'
          = (w', Finished (Rejected (PlainError (auth_description e)))))
    /\ (forall result rest w',
          success result = None \/ success result = Some [] ->
          error result = None ->
          run (k (Fulfilled (result :: rest))) w'
          = (w', Finished (Rejected
                             (PlainError "Unexpected response format from Hue bridge"))))
    /\ (forall m c st w',
          run (k (Rejected (AxiosError m c st))) w'
          = (w', Finished (Rejected (PlainError ("Failed to create API key: " +:+ m))))).
Proof.
  unfold createApiKey. simpl. eexists. split; [reflexivity|].
  split; [|split; [|split]].
  - intros result rest u us w' Hsuccess. simpl. rewrite Hsuccess. reflexivity.
  - intros result rest e w' Hnone Herror. simpl.
    destruct Hnone as [-> | ->]; rewrite Herror; simpl; reflexivity.
  - intros result rest w' Hnone Herror. simpl.
    destruct Hnone as [-> | ->]; rewrite Herror; simpl; reflexivity.
  - intros. reflexivity.
Qed.
End CreateApiKey.

(** C9. The bridge answers the key request with one element that is
    either a [success] entry or an [error] object.  For a [success]
    element [createApiKey] returns the [username] of its first entry;
    for an [error] element (one without a [success] entry) it rejects
    with an error whose message is that error's [description]. *)
Theorem createApiKey_round_trip {S : Type} (bridgeIp appName deviceName : string)
    (w : World HttpReq S) :
  exists k : Settled (list HueAuthResponse) -> http S string,
    run (createApiKey bridgeIp appName deviceName) w
    = (record (Requested (auth_post bridgeIp appName deviceName)) w,
       Pending (auth_post bridgeIp appName deviceName) k)
    /\ (forall result u us w',
          success result = Some (u :: us) ->
          run (k (Fulfilled [result])) w' = (w', Finished (Fulfilled (username u))))
    /\ (forall result e w',
          error result = Some e ->
          success result = None \/ success result = Some [] ->
          run (k (Fulfilled [result])) w'
          = (w', Finished (Rejected (PlainError (auth_description e))))
          /\ error_message (PlainError (auth_description e)) = auth_description e).
Proof.
  destruct (createApiKey_steps bridgeIp appName deviceName w)
    as (k & Hrun & Hsuccess & Herror & _).
  exists k. split; [exact Hrun|]. split.
  - intros result u us w' Hs. exact (Hsuccess result [] u us w' Hs).
  - intros result e w' He Hs. split; [apply Herror; assumption | reflexivity].
Qed.

Lemma createApiKey_round_trip_witness :
  exists k : Settled (list HueAuthResponse) -> http unit string,
    run (createApiKey "192.168.1.100" "testapp" "testdevice") (fresh_world tt)
    = (record (Requested (auth_post "192.168.1.100" "testapp" "testdevice")) (fresh_world tt),
       Pending (auth_post "192.168.1.100" "testapp" "testdevice") k)
    /\ run (k (Fulfilled [ {| success := Some [ {| username := "test-api-key-123" |} ];
                              error := None |} ])) (fresh_world tt)
       = (fresh_world tt, Finished (Fulfilled "test-api-key-123"))
    /\ run (k (Fulfilled [ {| success := None; error := Some link_button_error |} ]))
         (fresh_world tt)
       = (fresh_world tt, Finished (Rejected (PlainError "link button not pressed"))).
Proof.
  destruct (createApiKey_round_trip "192.168.1.100" "testapp" "testdevice"
              (fresh_world tt)) as (k & Hrun & Hsuccess & Herror).
  exists k. split; [exact Hrun|]. split.
  - apply (Hsuccess _ {| username := "test-api-key-123" |} []). reflexivity.
  - apply (Herror {| success := None; error := Some link_button_error |} link_button_error);
      [reflexivity | left; reflexivity].
Defined.

(** * Further properties of the code *)

(** ** The client's methods, one HTTP exchange each *)

(** X1. [getScenes] sends one GET to [/resource/scene]; it returns the
    [data] array of the answer as it is when the [errors] list is
    empty, and rejects with the joined descriptions otherwise. *)
Theorem getScenes_returns_data_or_joined_errors {S : Type} (client : HueApiClient)
    (w : World HttpReq S) :
  exists k : Settled (HueResourceResponse HueScene) -> http S (list HueScene),
    run (getScenes client) w
    = (record (Requested (ClientGetScenes client "/resource/scene")) w,
       Pending (ClientGetScenes client "/resource/scene") k)
    /\ forall (response : HueResourceResponse HueScene) (w' : World HttpReq S),
         run (k (Fulfilled response)) w'
         = (w', Finished
                  (match errors response with
                   | [] => Fulfilled (data response)
                   | _ :: _ =>
                       Rejected (PlainError
                                   ("Hue API errors: "
                                      +:+ String.concat ", " (description <$> errors response)))
                   end)).
Proof.
  unfold getScenes. simpl. eexists. split; [reflexivity|].
  intros response w'. simpl. unfold check_errors, join_descriptions.
  destruct (errors response); reflexivity.
Qed.

(** X2. [getScene] sends one GET to [/resource/scene/{id}]; with an
    empty [errors] list it returns the first element of [data], and
    rejects with [Scene {id} not found] when [data] is empty; with
    errors it rejects with the joined descriptions, whatever [data]
    holds. *)
Theorem getScene_first_or_not_found {S : Type} (client : HueApiClient) (sceneId : string)
    (w : World HttpReq S) :
  exists k : Settled (HueResourceResponse HueScene) -> http S HueScene,
    run (getScene client sceneId) w
    = (record (Requested (ClientGetScene client ("/resource/scene/" +:+ sceneId))) w,
       Pending (ClientGetScene client ("/resource/scene/" +:+ sceneId)) k)
    /\ forall (response : HueResourceResponse HueScene) (w' : World HttpReq S),
         run (k (Fulfilled response)) w'
         = (w', Finished
                  (match errors response, data response with
                   | [], scene :: _ => Fulfilled scene
                   | [], [] => Rejected (PlainError ("Scene " +:+ sceneId +:+ " not found"))
                   | _ :: _, _ =>
                       Rejected (PlainError
                                   ("Hue API errors: "
                                      +:+ String.concat ", " (description <$> errors response)))
                   end)).
Proof.
  unfold getScene. simpl. eexists. split; [reflexivity|].
  intros response w'. simpl. unfold check_errors, join_descriptions.
  destruct (errors response); simpl; [|reflexivity].
  destruct (data response); reflexivity.
Qed.

(** X3. [recallScene] sends one PUT to [/resource/scene/{id}] whose body
    always has [recall.action = 'active'], and has a [recall.duration]
    exactly when a positive [transitionMs] is given, which it then
    equals; it resolves when the answer has no errors and rejects with
    the joined descriptions otherwise. *)
Theorem recallScene_request_and_outcome {S : Type} (client : HueApiClient)
    (sceneId : string) (transitionMs : option Z) (w : World HttpReq S) :
  exists (body : SceneRecallRequest)
         (k : Settled (HueResourceResponse HueScene) -> http S unit),
    run (recallScene client sceneId transitionMs) w
    = (record (Requested (ClientPutScene client ("/resource/scene/" +:+ sceneId) body)) w,
       Pending (ClientPutScene client ("/resource/scene/" +:+ sceneId) body) k)
    /\ action (recall body) = action_active
    /\ (forall ms, duration (recall body) = Some ms <-> transitionMs = Some ms /\ 0 < ms)
    /\ forall (response : HueResourceResponse HueScene) (w' : World HttpReq S),
         run (k (Fulfilled response)) w'
         = (w', Finished
                  (match errors response with
                   | [] => Fulfilled tt
                   | _ :: _ =>
                       Rejected (PlainError
                                   ("Hue API errors: "
                                      +:+ String.concat ", " (description <$> errors response)))
                   end)).
Proof.
  unfold recallScene. simpl. do 2 eexists. split; [reflexivity|].
  split; [|split].
  - unfold recall_request. destruct transitionMs as [ms|]; [|reflexivity].
    destruct (0 <? ms); reflexivity.
  - intros ms. unfold recall_request. destruct transitionMs as [ms'|]; simpl.
    + destruct (0 <? ms') eqn:E; simpl.
      * apply Z.ltb_lt in E. split.
        -- intros [= ->]. auto.
        -- intros [[= ->] _]. reflexivity.
      * apply Z.ltb_ge in E. split; [discriminate|].
        intros [[= ->] Hpos]. lia.
    + split; [discriminate | intros [? _]; discriminate].
  - intros response w'. simpl. unfold check_errors, join_descriptions.
    destruct (errors response); reflexivity.
Qed.

(** X4. A failed exchange is classified the same way by [getScenes],
    [getScene] and [recallScene]: an axios error is replaced by the
    error of [handleApiError], any other rejection is passed on as it
    is. *)
Theorem instance_methods_classify_failures {S : Type} (client : HueApiClient)
    (sceneId : string) (transitionMs : option Z) (w : World HttpReq S) (e : JsError) :
  let classified :=
    match e with
    | AxiosError m c st => handleApiError m c st
    | _ => e
    end in
  (exists k : Settled (HueResourceResponse HueScene) -> http S (list HueScene),
     (run (getScenes client) w).2 = Pending (ClientGetScenes client "/resource/scene") k
     /\ forall w', run (k (Rejected e)) w' = (w', Finished (Rejected classified)))
  /\ (exists k : Settled (HueResourceResponse HueScene) -> http S HueScene,
        (run (getScene client sceneId) w).2
        = Pending (ClientGetScene client ("/resource/scene/" +:+ sceneId)) k
        /\ forall w', run (k (Rejected e)) w' = (w', Finished (Rejected classified)))
  /\ (exists k : Settled (HueResourceResponse HueScene) -> http S unit,
        (run (recallScene client sceneId transitionMs) w).2
        = Pending (ClientPutScene client ("/resource/scene/" +:+ sceneId)
                     (recall_request transitionMs)) k
        /\ forall w', run (k (Rejected e)) w' = (w', Finished (Rejected classified))).
Proof.
  intros classified. subst classified.
  split; [|split]; eexists; (split; [reflexivity|]); intros w'; destruct e; reflexivity.
Qed.

(** X5. In [handleApiError] a status that it names (401, 403, 404, 429,
    500 and above) decides the error alone, whatever the error's code
    and message; any other status is ignored, and the error is the one
    of a failure without a response; and without a named status the
    codes ECONNREFUSED and ETIMEDOUT decide, whatever the message. *)
Theorem handleApiError_status_before_code (m m' : string) (c c' : option string)
    (status : Z) :
  (named_status status ->
   handleApiError m c (Some status) = handleApiError m' c' (Some status))
  /\ (~ named_status status ->
      handleApiError m c (Some status) = handleApiError m c None)
  /\ (c = Some "ECONNREFUSED" \/ c = Some "ETIMEDOUT" ->
      handleApiError m c None = handleApiError m' c None).
Proof.
  unfold named_status, handleApiError. split; [|split].
  - intros Hnamed.
    destruct (status =? 401) eqn:E1; [reflexivity|].
    destruct (status =? 403) eqn:E2; [reflexivity|]. simpl.
    destruct (status =? 404) eqn:E3; [reflexivity|].
    destruct (status =? 429) eqn:E4; [reflexivity|].
    destruct (500 <=? status) eqn:E5; [reflexivity|].
    apply Z.eqb_neq in E1, E2, E3, E4. apply Z.leb_gt in E5. lia.
  - intros Hother.
    destruct (status =? 401) eqn:E1; [apply Z.eqb_eq in E1; tauto|].
    destruct (status =? 403) eqn:E2; [apply Z.eqb_eq in E2; tauto|]. simpl.
    destruct (status =? 404) eqn:E3; [apply Z.eqb_eq in E3; tauto|].
    destruct (status =? 429) eqn:E4; [apply Z.eqb_eq in E4; tauto|].
    destruct (500 <=? status) eqn:E5; [apply Z.leb_le in E5; tauto|].
    reflexivity.
  - intros [-> | ->]; reflexivity.
Qed.

Lemma handleApiError_status_before_code_witness :
  named_status 503
  /\ handleApiError "Request failed with status code 503" (Some "ERR_BAD_RESPONSE") (Some 503)
     = handleApiError "timeout of 10000ms exceeded" (Some "ETIMEDOUT") (Some 503)
  /\ ~ named_status 400
  /\ handleApiError "Request failed with status code 400" (Some "ECONNREFUSED") (Some 400)
     = PlainError "Cannot connect to Hue bridge - check bridge IP address".
Proof.
  assert (named_status 503) as Hnamed by (unfold named_status; lia).
  assert (~ named_status 400) as Hother by (unfold named_status; lia).
  split; [exact Hnamed|].
  split; [apply (handleApiError_status_before_code _ _ _ _ 503); exact Hnamed|].
  split; [exact Hother|].
  rewrite (proj1 (proj2 (handleApiError_status_before_code
                           "Request failed with status code 400"
                           "Request failed with status code 400"
                           (Some "ECONNREFUSED") (Some "ECONNREFUSED") 400)) Hother).
  reflexivity.
Defined.

(** X6. The other answers to [createApiKey]: an element that has
    neither a non-empty [success] list nor an [error] object, and an
    empty list, make it reject, with [Unexpected response format from
    Hue bridge] and with a [TypeError]; a failed exchange rejects with
    the axios message behind [Failed to create API key: ], and any other
    error as it is. It makes one POST to [https://{bridgeIp}/api] with
    the device type [{appName}#{deviceName}]. *)
Theorem createApiKey_other_answers {S : Type} (bridgeIp appName deviceName : string)
    (w : World HttpReq S) :
  exists k : Settled (list HueAuthResponse) -> http S string,
    run (createApiKey bridgeIp appName deviceName) w
    = (record (Requested (AxiosPostAuth ("https://" +:+ bridgeIp +:+ "/api")
                            (appName +:+ "#" +:+ deviceName))) w,
       Pending (AxiosPostAuth ("https://" +:+ bridgeIp +:+ "/api")
                  (appName +:+ "#" +:+ deviceName)) k)
    /\ (forall result rest w',
          success result = None \/ success result = Some [] ->
          error result = None ->
          run (k (Fulfilled (result :: rest))) w'
          = (w', Finished (Rejected (PlainError "Unexpected response format from Hue bridge"))))
    /\ (forall w', exists text,
          run (k (Fulfilled [])) w' = (w', Finished (Rejected (TypeError text))))
    /\ (forall m c st w',
          run (k (Rejected (AxiosError m c st))) w'
          = (w', Finished (Rejected (PlainError ("Failed to create API key: " +:+ m)))))
    /\ (forall e w',
          (forall m c st, e <> AxiosError m c st) ->
          run (k (Rejected e)) w' = (w', Finished (Rejected e))).
Proof.
  unfold createApiKey. simpl. eexists. split; [reflexivity|].
  split; [|split; [|split]].
  - intros result rest w' Hnone Herror. simpl.
    destruct Hnone as [-> | ->]; rewrite Herror; reflexivity.
  - intros w'. eexists. reflexivity.
  - intros. reflexivity.
  - intros e w' Hnot. destruct e; try reflexivity.
    destruct (Hnot message code response_status eq_refl).
Qed.

Lemma createApiKey_other_answers_witness :
  exists k : Settled (list HueAuthResponse) -> http unit string,
    (run (createApiKey "192.168.1.100" "testapp" "testdevice") (fresh_world tt)).2
    = Pending (AxiosPostAuth "https://192.168.1.100/api" "testapp#testdevice") k
    /\ run (k (Fulfilled [ {| success := Some []; error := None |} ])) (fresh_world tt)
       = (fresh_world tt,
          Finished (Rejected (PlainError "Unexpected response format from Hue bridge")))
    /\ run (k (Rejected (TypeError "boom"))) (fresh_world tt)
       = (fresh_world tt, Finished (Rejected (TypeError "boom"))).
Proof.
  destruct (createApiKey_other_answers "192.168.1.100" "testapp" "testdevice"
              (fresh_world (Sig:=HttpReq) tt))
    as (k & Hrun & Hneither & _ & _ & Hother).
  exists k. split; [rewrite Hrun; reflexivity|]. split.
  - apply Hneither; [right; reflexivity | reflexivity].
  - apply Hother. intros m c st. discriminate.
Defined.

(** ** Discovery and the connectivity probe *)

(** X7. [discoverBridges] sends one GET to the discovery URL with the
    10 s timeout and returns the answer as it is; a failed exchange
    rejects with the axios message behind [Failed to discover Hue
    bridges: ], any other error as it is. *)
Theorem discoverBridges_answer_or_failure {S : Type} (w : World ProbeReq S) :
  exists k : Settled (list HueBridgeDiscoveryResponse)
             -> probe S (list HueBridgeDiscoveryResponse),
    run discoverBridges w
    = (record (Requested (AxiosGetDiscovery "https://discovery.meethue.com" 10000)) w,
       Pending (AxiosGetDiscovery "https://discovery.meethue.com" 10000) k)
    /\ (forall bridges w',
          run (k (Fulfilled bridges)) w' = (w', Finished (Fulfilled bridges)))
    /\ (forall m c st w',
          run (k (Rejected (AxiosError m c st))) w'
          = (w', Finished (Rejected (PlainError ("Failed to discover Hue bridges: " +:+ m)))))
    /\ (forall e w',
          (forall m c st, e <> AxiosError m c st) ->
          run (k (Rejected e)) w' = (w', Finished (Rejected e))).
Proof.
  unfold discoverBridges. simpl. eexists. split; [reflexivity|].
  split; [|split]; try (intros; reflexivity).
  intros e w' Hnot. destruct e; try reflexivity.
  destruct (Hnot message code response_status eq_refl).
Qed.

Lemma discoverBridges_answer_or_failure_witness :
  exists k : Settled (list HueBridgeDiscoveryResponse)
             -> probe unit (list HueBridgeDiscoveryResponse),
    (run discoverBridges (fresh_world tt)).2
    = Pending (AxiosGetDiscovery "https://discovery.meethue.com" 10000) k
    /\ run (k (Rejected (PlainError "Network error"))) (fresh_world tt)
       = (fresh_world tt, Finished (Rejected (PlainError "Network error"))).
Proof.
  destruct (discoverBridges_answer_or_failure (fresh_world (Sig:=ProbeReq) tt))
    as (k & Hrun & _ & _ & Hother).
  exists k. split; [rewrite Hrun; reflexivity|].
  apply Hother. intros m c st. discriminate.
Defined.

(** X8. [testConnection] never rejects: it sends one GET to [/resource]
    and returns [true] when the exchange succeeds, whatever the answer,
    and [false] when it fails, whatever the error. *)
Theorem testConnection_never_rejects {S : Type} (client : HueApiClient)
    (w : World ProbeReq S) :
  exists k : Settled unit -> probe S bool,
    run (testConnection client) w
    = (record (Requested (ClientGetResource client "/resource")) w,
       Pending (ClientGetResource client "/resource") k)
    /\ forall (reply : Settled unit) (w' : World ProbeReq S),
         run (k reply) w'
         = (w', Finished (Fulfilled (match reply with
                                     | Fulfilled _ => true
                                     | Rejected _ => false
                                     end))).
Proof.
  unfold testConnection. simpl. eexists. split; [reflexivity|].
  intros [[]|e] w'; reflexivity.
Qed.

(** X9. [getLights] sends one GET to [/resource/light]; it returns the
    [data] array as it is when the [errors] list is empty and rejects
    with the joined descriptions otherwise; a failed exchange is
    classified by [handleApiError]. *)
Theorem getLights_returns_data_or_joined_errors {S : Type} (client : HueApiClient)
    (w : World ProbeReq S) :
  exists k : Settled (HueResourceResponse HueLight) -> probe S (list HueLight),
    run (getLights client) w
    = (record (Requested (ClientGetLights client "/resource/light")) w,
       Pending (ClientGetLights client "/resource/light") k)
    /\ (forall (response : HueResourceResponse HueLight) (w' : World ProbeReq S),
          run (k (Fulfilled response)) w'
          = (w', Finished
                   (match errors response with
                    | [] => Fulfilled (data response)
                    | _ :: _ =>
                        Rejected (PlainError
                                    ("Hue API errors: "
                                       +:+ String.concat ", " (description <$> errors response)))
                    end)))
    /\ forall m c st w',
         run (k (Rejected (AxiosError m c st))) w'
         = (w', Finished (Rejected (handleApiError m c st))).
Proof.
  unfold getLights. simpl. eexists. split; [reflexivity|]. split.
  - intros response w'. simpl. unfold join_descriptions.
    destruct (errors response); reflexivity.
  - intros. reflexivity.
Qed.

(** ** The accessory against the bridge *)

(** [getOn], linked with the client, outside the window: one GET, and
    what each answer gives. *)
Lemma getOn_linked_fetches (sceneConfig : SceneConfig) (api : HueApiClient)
    (config : HueTransitionsPlatformConfig) (w : World HttpReq HueSceneAccessory) :
  window_closed (this w) (clock w) ->
  let get := ClientGetScene api ("/resource/scene/" +:+ cfg_id sceneConfig) in
  exists k : Settled (HueResourceResponse HueScene) -> http HueSceneAccessory bool,
    run (link (getOn sceneConfig api config)) w = (record (Requested get) w, Pending get k)
    /\ (forall response scene rest w',
          errors response = [] ->
          data response = scene :: rest ->
          run (k (Fulfilled response)) w'
          = (if truthy (debug config) then record (Did (log_status sceneConfig scene)) w' else w',
             Finished (Fulfilled (isActive_of scene))))
    /\ (forall reply w',
          gives_no_scene reply ->
          run (k reply) w'
          = (record (Did (log_fetch_failed sceneConfig
                            (getScene_error (cfg_id sceneConfig) reply))) w',
             Finished (Fulfilled false))).
Proof.
  unfold window_closed, getOn, getOn_fetch. intros Hout. simpl.
  destruct (lastActivated (this w)) as [t0|] eqn:Hlast; simpl.
  - destruct (clock w - t0 <? 30000) eqn:E; [apply Z.ltb_lt in E; lia|]. simpl.
    eexists. split; [reflexivity|]. split.
    + intros response scene rest w' Herr Hdata. simpl.
      unfold check_errors. rewrite Herr, Hdata. simpl.
      destruct (truthy (debug config)); reflexivity.
    + intros [response|e] w' Hno; simpl.
      * unfold check_errors. destruct (errors response) eqn:Herr; simpl.
        -- destruct Hno as [Hno | Hno]; [congruence|]. rewrite Hno. reflexivity.
        -- reflexivity.
      * destruct e; reflexivity.
  - eexists. split; [reflexivity|]. split.
    + intros response scene rest w' Herr Hdata. simpl.
      unfold check_errors. rewrite Herr, Hdata. simpl.
      destruct (truthy (debug config)); reflexivity.
    + intros [response|e] w' Hno; simpl.
      * unfold check_errors. destruct (errors response) eqn:Herr; simpl.
        -- destruct Hno as [Hno | Hno]; [congruence|]. rewrite Hno. reflexivity.
        -- reflexivity.
      * destruct e; reflexivity.
Qed.

(** Inside the window [getOn] answers [true] by itself, with the calls
    of the client or linked with it. *)
Lemma getOn_answers_locally (sceneConfig : SceneConfig) (api : HueApiClient)
    (config : HueTransitionsPlatformConfig) (t0 : Z) :
  (forall w : World ApiCall HueSceneAccessory,
     lastActivated (this w) = Some t0 -> clock w - t0 < 30000 ->
     run (getOn sceneConfig api config) w = (w, Finished (Fulfilled true)))
  /\ (forall w : World HttpReq HueSceneAccessory,
        lastActivated (this w) = Some t0 -> clock w - t0 < 30000 ->
        run (link (getOn sceneConfig api config)) w = (w, Finished (Fulfilled true))).
Proof.
  split; intros w Hlast Hrecent; unfold getOn; simpl; rewrite Hlast; simpl;
    (destruct (clock w - t0 <? 30000) eqn:E; [reflexivity | apply Z.ltb_ge in E; lia]).
Qed.

Lemma window_closed_or_open (a : HueSceneAccessory) (now : Z) :
  window_closed a now \/ exists t0, lastActivated a = Some t0 /\ now - t0 < 30000.
Proof.
  unfold window_closed. destruct (lastActivated a) as [t0|]; [|left; exact I].
  destruct (Z.lt_ge_cases (now - t0) 30000); [right; eauto | left; assumption].
Qed.

(** X10. [getOn] never rejects: it either answers [true] at once, or
    asks the bridge once and then resolves with a boolean, however the
    call, or linked with the client the HTTP exchange, settles. The
    communication-failure status of its outer [catch] is never thrown. *)
Theorem getOn_never_rejects (sceneConfig : SceneConfig) (api : HueApiClient)
    (config : HueTransitionsPlatformConfig)
    (w : World ApiCall HueSceneAccessory) (wh : World HttpReq HueSceneAccessory) :
  (run (getOn sceneConfig api config) w = (w, Finished (Fulfilled true))
   \/ exists k : Settled HueScene -> task HueSceneAccessory bool,
        run (getOn sceneConfig api config) w
        = (record (Requested (Call_getScene api (cfg_id sceneConfig))) w,
           Pending (Call_getScene api (cfg_id sceneConfig)) k)
        /\ forall reply w', exists b w'',
             run (k reply) w' = (w'', Finished (Fulfilled b))
             /\ requests (trace w'') = requests (trace w'))
  /\ (run (link (getOn sceneConfig api config)) wh = (wh, Finished (Fulfilled true))
      \/ exists k : Settled (HueResourceResponse HueScene) -> http HueSceneAccessory bool,
           run (link (getOn sceneConfig api config)) wh
           = (record (Requested (ClientGetScene api ("/resource/scene/" +:+ cfg_id sceneConfig)))
                wh,
              Pending (ClientGetScene api ("/resource/scene/" +:+ cfg_id sceneConfig)) k)
           /\ forall reply w', exists b w'',
                run (k reply) w' = (w'', Finished (Fulfilled b))
                /\ requests (trace w'') = requests (trace w')).
Proof.
  split.
  - destruct (window_closed_or_open (this w) (clock w)) as [Hclosed | (t0 & Hlast & Hrecent)].
    + right. destruct (getOn_fetches sceneConfig api config w Hclosed) as (k & Hrun & Hok & Herr).
      exists k. split; [exact Hrun|].
      intros [scene|e] w'.
      * rewrite Hok. do 2 eexists. split; [reflexivity|].
        destruct (truthy (debug config)); [|reflexivity].
        simpl. rewrite requests_app. apply app_nil_r.
      * rewrite Herr. do 2 eexists. split; [reflexivity|].
        simpl. rewrite requests_app. apply app_nil_r.
    + left. apply (getOn_answers_locally sceneConfig api config t0); assumption.
  - destruct (window_closed_or_open (this wh) (clock wh)) as [Hclosed | (t0 & Hlast & Hrecent)].
    + right.
      destruct (getOn_linked_fetches sceneConfig api config wh Hclosed) as (k & Hrun & Hok & Herr).
      exists k. split; [exact Hrun|].
      intros reply w'.
      assert ((exists response scene rest,
                 reply = Fulfilled response /\ errors response = []
                 /\ data response = scene :: rest)
              \/ gives_no_scene reply) as [(response & scene & rest & -> & Herrs & Hdata) | Hno].
      { destruct reply as [response|e]; [|right; exact I].
        destruct (errors response) eqn:Herrs; [|right; left; rewrite Herrs; discriminate].
        destruct (data response) eqn:Hdata; [right; right; exact Hdata|].
        left. eauto 6. }
      * rewrite (Hok response scene rest w' Herrs Hdata). do 2 eexists. split; [reflexivity|].
        destruct (truthy (debug config)); [|reflexivity].
        simpl. rewrite requests_app. apply app_nil_r.
      * rewrite (Herr reply w' Hno). do 2 eexists. split; [reflexivity|].
        simpl. rewrite requests_app. apply app_nil_r.
    + left. apply (getOn_answers_locally sceneConfig api config t0); assumption.
Qed.

(** X11. Outside the window [getOn] reports the bridge: it returns
    [true] exactly when the scene that [getScene] gives has the status
    [static] or [dynamic_palette], and [false], with a warning in the
    log, when [getScene] rejects. *)
Theorem getOn_reports_bridge_status (sceneConfig : SceneConfig) (api : HueApiClient)
    (config : HueTransitionsPlatformConfig) (w : World ApiCall HueSceneAccessory) :
  window_closed (this w) (clock w) ->
  exists k : Settled HueScene -> task HueSceneAccessory bool,
    run (getOn sceneConfig api config) w
    = (record (Requested (Call_getScene api (cfg_id sceneConfig))) w,
       Pending (Call_getScene api (cfg_id sceneConfig)) k)
    /\ (forall scene w',
          (run (k (Fulfilled scene)) w').2
          = Finished (Fulfilled match status scene with
                                | Some {| active := static |} => true
                                | Some {| active := dynamic_palette |} => true
                                | Some {| active := inactive |} => false
                                | None => false
                                end))
    /\ (forall e w',
          run (k (Rejected e)) w'
          = (record (Did (Log LWarn ("Failed to get scene status for "
                                       +:+ cfg_name sceneConfig +:+ ": "
                                       +:+ error_message e))) w',
             Finished (Fulfilled false))).
Proof.
  intros Hclosed.
  destruct (getOn_fetches sceneConfig api config w Hclosed) as (k & Hrun & Hok & Herr).
  exists k. split; [exact Hrun|]. split; [|exact Herr].
  intros scene w'. rewrite Hok. simpl. do 2 f_equal.
  unfold isActive_of, status_active.
  destruct (status scene) as [[[]]|]; reflexivity.
Qed.

Lemma getOn_reports_bridge_status_witness :
  exists k : Settled HueScene -> task HueSceneAccessory bool,
    run (getOn example_scene example_api example_config)
      (fresh_world new_HueSceneAccessory)
    = (record (Requested (Call_getScene example_api "scene-1"))
         (fresh_world new_HueSceneAccessory),
       Pending (Call_getScene example_api "scene-1") k)
    /\ (run (k (Fulfilled {| scene_id := "scene-1"; metadata_name := "Test Scene";
                               status := Some {| active := static |} |}))
          (fresh_world new_HueSceneAccessory)).2
       = Finished (Fulfilled true).
Proof.
  destruct (getOn_reports_bridge_status example_scene example_api example_config
              (fresh_world new_HueSceneAccessory) I) as (k & Hrun & Hok & _).
  exists k. split; [exact Hrun|]. apply Hok.
Defined.

(** X12. [getOn] against the bridge, outside the window: one GET to
    [/resource/scene/{id}]; an answer without errors gives the status
    of its first scene, and an error envelope, an empty [data] and a
    failed exchange all give [false], with one warning in the log that
    carries the error of [getScene]: for an empty [data] without
    errors, [Scene {id} not found]. *)
Theorem getOn_linked_with_client (sceneConfig : SceneConfig) (api : HueApiClient)
    (config : HueTransitionsPlatformConfig) (w : World HttpReq HueSceneAccessory) :
  window_closed (this w) (clock w) ->
  exists k : Settled (HueResourceResponse HueScene) -> http HueSceneAccessory bool,
    run (link (getOn sceneConfig api config)) w
    = (record (Requested (ClientGetScene api ("/resource/scene/" +:+ cfg_id sceneConfig))) w,
       Pending (ClientGetScene api ("/resource/scene/" +:+ cfg_id sceneConfig)) k)
    /\ (forall response scene rest w',
          errors response = [] ->
          data response = scene :: rest ->
          (run (k (Fulfilled response)) w').2 = Finished (Fulfilled (isActive_of scene)))
    /\ (forall reply w',
          gives_no_scene reply ->
          run (k reply) w'
          = (record (Did (Log LWarn ("Failed to get scene status for "
                                       +:+ cfg_name sceneConfig +:+ ": "
                                       +:+ error_message
                                             (getScene_error (cfg_id sceneConfig) reply)))) w',
             Finished (Fulfilled false)))
    /\ (forall response,
          errors response = [] ->
          error_message (getScene_error (cfg_id sceneConfig) (Fulfilled response))
          = "Scene " +:+ cfg_id sceneConfig +:+ " not found").
Proof.
  intros Hclosed.
  destruct (getOn_linked_fetches sceneConfig api config w Hclosed) as (k & Hrun & Hok & Herr).
  exists k. split; [exact Hrun|]. split; [|split].
  - intros response scene rest w' Herrs Hdata.
    rewrite (Hok response scene rest w' Herrs Hdata). reflexivity.
  - intros reply w' Hno. rewrite (Herr reply w' Hno). reflexivity.
  - intros response Herrs. unfold getScene_error. rewrite Herrs. reflexivity.
Qed.

Lemma getOn_linked_with_client_witness :
  exists k : Settled (HueResourceResponse HueScene) -> http HueSceneAccessory bool,
    (run (link (getOn example_scene example_api example_config))
       (fresh_world new_HueSceneAccessory)).2
    = Pending (ClientGetScene example_api "/resource/scene/scene-1") k
    /\ run (k (Fulfilled {| errors := []; data := [] |})) (fresh_world new_HueSceneAccessory)
       = (record (Did (Log LWarn
                         "Failed to get scene status for Test Scene: Scene scene-1 not found"))
            (fresh_world new_HueSceneAccessory),
          Finished (Fulfilled false)).
Proof.
  destruct (getOn_linked_with_client example_scene example_api example_config
              (fresh_world new_HueSceneAccessory) I) as (k & Hrun & _ & Hno & _).
  exists k. split; [rewrite Hrun; reflexivity|].
  apply (Hno (Fulfilled {| errors := []; data := [] |})). right. reflexivity.
Defined.

(** ** Activation and the 30-second window *)

(** X13. After a [setOn(true)] whose [recallScene] resolved at time
    [t1], [lastActivated] is [t1] and the flag is clear; [getOn] at a
    time less than 30000 ms later answers [true] without asking the
    bridge, and from 30000 ms on it asks the bridge again. *)
Theorem getOn_after_activation (sceneConfig : SceneConfig) (api : HueApiClient)
    (config : HueTransitionsPlatformConfig)
    (w0 : World ApiCall HueSceneAccessory) (t1 t2 : Z) :
  isActivating (this w0) = false ->
  exists (w1 w2 : World ApiCall HueSceneAccessory)
         (k : Settled unit -> task HueSceneAccessory unit),
    run (setOn sceneConfig api config true) w0
    = (w1, Pending (recall_call sceneConfig api) k)
    /\ run (k (Fulfilled tt)) (at_time t1 w1) = (w2, Finished (Fulfilled tt))
    /\ lastActivated (this w2) = Some t1
    /\ isActivating (this w2) = false
    /\ (t2 - t1 < 30000 ->
        run (getOn sceneConfig api config) (at_time t2 w2)
        = (at_time t2 w2, Finished (Fulfilled true)))
    /\ (30000 <= t2 - t1 ->
        exists k' : Settled HueScene -> task HueSceneAccessory bool,
          run (getOn sceneConfig api config) (at_time t2 w2)
          = (record (Requested (Call_getScene api (cfg_id sceneConfig))) (at_time t2 w2),
             Pending (Call_getScene api (cfg_id sceneConfig)) k')).
Proof.
  intros Hidle.
  destruct (setOn_true_start sceneConfig api config w0 Hidle) as (k & Hrun & Hok & _).
  eexists _, _, k. split; [exact Hrun|].
  split; [apply Hok|].
  split; [reflexivity|]. split; [reflexivity|]. split.
  - intros Hrecent.
    apply (proj1 (getOn_answers_locally sceneConfig api config t1)); [reflexivity | exact Hrecent].
  - intros Hold.
    match goal with
    | |- context [run (getOn _ _ _) ?w] =>
        destruct (getOn_fetches sceneConfig api config w Hold) as (k' & Hrun' & _)
    end.
    exists k'. exact Hrun'.
Qed.

Lemma getOn_after_activation_witness :
  exists (w1 w2 : World ApiCall HueSceneAccessory)
         (k : Settled unit -> task HueSceneAccessory unit),
    run (setOn example_scene example_api example_config true)
      (fresh_world new_HueSceneAccessory)
    = (w1, Pending (recall_call example_scene example_api) k)
    /\ run (k (Fulfilled tt)) (at_time 1700000000200 w1) = (w2, Finished (Fulfilled tt))
    /\ run (getOn example_scene example_api example_config) (at_time 1700000030199 w2)
       = (at_time 1700000030199 w2, Finished (Fulfilled true)).
Proof.
  destruct (getOn_after_activation example_scene example_api example_config
              (fresh_world new_HueSceneAccessory) 1700000000200 1700000030199 eq_refl)
    as (w1 & w2 & k & Hrun & Hok & _ & _ & Hrecent & _).
  exists w1, w2, k. split; [exact Hrun|]. split; [exact Hok|].
  apply Hrecent. lia.
Defined.

(** X14. [setOn(false)] with no activation in flight ends the window:
    [getOn] after it asks the bridge, at whatever time. *)
Theorem setOn_false_ends_window (sceneConfig : SceneConfig) (api : HueApiClient)
    (config : HueTransitionsPlatformConfig)
    (w : World ApiCall HueSceneAccessory) (t : Z) :
  isActivating (this w) = false ->
  exists (w' : World ApiCall HueSceneAccessory)
         (k : Settled HueScene -> task HueSceneAccessory bool),
    run (setOn sceneConfig api config false) w = (w', Finished (Fulfilled tt))
    /\ run (getOn sceneConfig api config) (at_time t w')
       = (record (Requested (Call_getScene api (cfg_id sceneConfig))) (at_time t w'),
          Pending (Call_getScene api (cfg_id sceneConfig)) k).
Proof.
  intros Hidle.
  pose proof (setOn_false_idle sceneConfig api config w Hidle) as Hrun.
  match type of Hrun with
  | _ = (?w', _) =>
      assert (window_closed (this (at_time t w')) (clock (at_time t w'))) as Hclosed
  end.
  { unfold window_closed. simpl. destruct (truthy (debug config)); exact I. }
  destruct (getOn_fetches sceneConfig api config _ Hclosed) as (k & Hget & _).
  eexists _, k. split; [exact Hrun | exact Hget].
Qed.

Lemma setOn_false_ends_window_witness :
  exists (w' : World ApiCall HueSceneAccessory)
         (k : Settled HueScene -> task HueSceneAccessory bool),
    run (setOn example_scene example_api example_config false)
      (fresh_world {| isActivating := false; lastActivated := Some 1699999999000 |})
    = (w', Finished (Fulfilled tt))
    /\ (run (getOn example_scene example_api example_config) (at_time 1700000000001 w')).2
       = Pending (Call_getScene example_api "scene-1") k.
Proof.
  destruct (setOn_false_ends_window example_scene example_api example_config
              (fresh_world {| isActivating := false; lastActivated := Some 1699999999000 |})
              1700000000001 eq_refl) as (w' & k & Hoff & Hget).
  exists w', k. split; [exact Hoff|]. rewrite Hget. reflexivity.
Defined.

(** X15. A [setOn(false)] that arrives while an activation is in flight
    is lost: it changes nothing, and once the activation has resolved
    the accessory remembers it, so that [getOn] inside the window
    answers [true]. *)
Theorem setOn_false_during_activation_is_lost (sceneConfig : SceneConfig)
    (api : HueApiClient) (config : HueTransitionsPlatformConfig)
    (w0 : World ApiCall HueSceneAccessory) (t1 t2 : Z) :
  isActivating (this w0) = false ->
  exists (w1 w2 w3 : World ApiCall HueSceneAccessory)
         (k : Settled unit -> task HueSceneAccessory unit),
    run (setOn sceneConfig api config true) w0
    = (w1, Pending (recall_call sceneConfig api) k)
    /\ run (setOn sceneConfig api config false) w1 = (w2, Finished (Fulfilled tt))
    /\ this w2 = this w1
    /\ requests (trace w2) = requests (trace w1)
    /\ run (k (Fulfilled tt)) (at_time t1 w2) = (w3, Finished (Fulfilled tt))
    /\ lastActivated (this w3) = Some t1
    /\ (t2 - t1 < 30000 ->
        run (getOn sceneConfig api config) (at_time t2 w3)
        = (at_time t2 w3, Finished (Fulfilled true))).
Proof.
  intros Hidle.
  destruct (setOn_true_start sceneConfig api config w0 Hidle) as (k & Hrun & Hok & _).
  eexists _, _, _, k. split; [exact Hrun|].
  split; [apply setOn_busy; reflexivity|].
  split; [reflexivity|].
  split; [simpl; rewrite !requests_app; simpl; rewrite !app_nil_r; reflexivity|].
  split; [apply Hok|].
  split; [reflexivity|].
  intros Hrecent.
  apply (proj1 (getOn_answers_locally sceneConfig api config t1)); [reflexivity | exact Hrecent].
Qed.

Lemma setOn_false_during_activation_is_lost_witness :
  exists (w1 w2 w3 : World ApiCall HueSceneAccessory)
         (k : Settled unit -> task HueSceneAccessory unit),
    run (setOn example_scene example_api example_config true)
      (fresh_world new_HueSceneAccessory)
    = (w1, Pending (recall_call example_scene example_api) k)
    /\ run (setOn example_scene example_api example_config false) w1
       = (w2, Finished (Fulfilled tt))
    /\ run (k (Fulfilled tt)) (at_time 1700000000200 w2) = (w3, Finished (Fulfilled tt))
    /\ lastActivated (this w3) = Some 1700000000200.
Proof.
  destruct (setOn_false_during_activation_is_lost example_scene example_api example_config
              (fresh_world new_HueSceneAccessory) 1700000000200 1700000000300 eq_refl)
    as (w1 & w2 & w3 & k & Hrun & Hoff & _ & _ & Hok & Hlast & _).
  exists w1, w2, w3, k. auto.
Defined.

(** X16. [handleSceneUpdate] acts on the accessory's own scene only: for
    its id it pushes [isActive] to the switch, for any other id it does
    nothing; in neither case does it touch [lastActivated] or
    [isActivating], or call the client. *)
Theorem handleSceneUpdate_own_scene_only (sceneConfig : SceneConfig)
    (config : HueTransitionsPlatformConfig) (sceneId : string) (isActive : bool)
    (w : World ApiCall HueSceneAccessory) :
  (sceneId = cfg_id sceneConfig ->
   run (handleSceneUpdate sceneConfig config sceneId isActive) w
   = (extend ((if truthy (debug config)
               then [Did (log_updating sceneConfig isActive)] else [])
              ++ [Did (UpdateCharacteristicOn isActive)]) w,
      Finished (Fulfilled tt)))
  /\ (sceneId <> cfg_id sceneConfig ->
      run (handleSceneUpdate sceneConfig config sceneId isActive) w
      = (w, Finished (Fulfilled tt)))
  /\ this (run (handleSceneUpdate sceneConfig config sceneId isActive) w).1 = this w
  /\ requests (trace (run (handleSceneUpdate sceneConfig config sceneId isActive) w).1)
     = requests (trace w).
Proof.
  unfold handleSceneUpdate.
  destruct (decide (sceneId = cfg_id sceneConfig)) as [Heq|Hne].
  - destruct (truthy (debug config)); simpl;
      (split; [intros _; unfold extend, record; simpl; rewrite <- ?app_assoc; reflexivity|]);
      (split; [intros Hne; contradiction|]); (split; [reflexivity|]);
      rewrite !requests_app; simpl; rewrite ?app_nil_r; reflexivity.
  - split; [intros Heq; contradiction|]. split; [reflexivity|]. split; reflexivity.
Qed.

Lemma handleSceneUpdate_own_scene_only_witness :
  run (handleSceneUpdate example_scene example_config "scene-1" true)
    (fresh_world new_HueSceneAccessory)
  = (extend [Did (UpdateCharacteristicOn true)] (fresh_world new_HueSceneAccessory),
     Finished (Fulfilled tt))
  /\ run (handleSceneUpdate example_scene example_config "scene-2" true)
       (fresh_world new_HueSceneAccessory)
     = (fresh_world new_HueSceneAccessory, Finished (Fulfilled tt)).
Proof.
  destruct (handleSceneUpdate_own_scene_only example_scene example_config "scene-1" true
              (fresh_world new_HueSceneAccessory)) as (Hown & _).
  destruct (handleSceneUpdate_own_scene_only example_scene example_config "scene-2" true
              (fresh_world new_HueSceneAccessory)) as (_ & Hother & _).
  split; [apply Hown; reflexivity | apply Hother; discriminate].
Defined.

(** X17. [setOn(true)] against the bridge: when the PUT is answered
    without errors the activation time is remembered and the flag
    cleared; an error envelope and a failed exchange both take the
    failure path, with the error of [recallScene] in the log, the
    switch scheduled back to off, the communication-failure status
    thrown, [lastActivated] untouched and the flag cleared. *)
Theorem setOn_linked_with_client (sceneConfig : SceneConfig) (api : HueApiClient)
    (config : HueTransitionsPlatformConfig) (w : World HttpReq HueSceneAccessory) :
  isActivating (this w) = false ->
  exists (body : SceneRecallRequest)
         (k : Settled (HueResourceResponse HueScene) -> http HueSceneAccessory unit),
    (run (link (setOn sceneConfig api config true)) w).2
    = Pending (ClientPutScene api ("/resource/scene/" +:+ cfg_id sceneConfig) body) k
    /\ (forall response w',
          errors response = [] ->
          run (k (Fulfilled response)) w'
          = (record (Did (log_activated sceneConfig))
               (with_this {| isActivating := false; lastActivated := Some (clock w') |} w'),
             Finished (Fulfilled tt)))
    /\ (forall reply w',
          recall_fails reply ->
          run (k reply) w'
          = (with_this (set_isActivating false (this w'))
               (record (Did (SetTimeout (UpdateOnLater false) 100))
                  (record (Did (log_failed sceneConfig (recallScene_error reply))) w')),
             Finished (Rejected (HapStatusError SERVICE_COMMUNICATION_FAILURE)))).
Proof.
  intros Hidle. unfold setOn. simpl. rewrite Hidle. simpl.
  do 2 eexists. split; [reflexivity|]. split.
  - intros response w' Herrs. simpl. unfold check_errors. rewrite Herrs. reflexivity.
  - intros [response|e] w' Hfail; simpl.
    + unfold check_errors. destruct (errors response) eqn:Herrs; [contradiction|].
      simpl. unfold recallScene_error. rewrite ?Herrs. reflexivity.
    + destruct e; reflexivity.
Qed.

Lemma setOn_linked_with_client_witness :
  exists (body : SceneRecallRequest)
         (k : Settled (HueResourceResponse HueScene) -> http HueSceneAccessory unit),
    (run (link (setOn example_scene example_api example_config true))
       (fresh_world new_HueSceneAccessory)).2
    = Pending (ClientPutScene example_api "/resource/scene/scene-1" body) k
    /\ (run (k (Rejected (AxiosError "Request failed with status code 401" None (Some 401))))
          (fresh_world new_HueSceneAccessory)).2
       = Finished (Rejected (HapStatusError SERVICE_COMMUNICATION_FAILURE)).
Proof.
  destruct (setOn_linked_with_client example_scene example_api example_config
              (fresh_world new_HueSceneAccessory) eq_refl) as (body & k & Hrun & _ & Hfail).
  exists body, k. split; [exact Hrun|].
  rewrite (Hfail (Rejected (AxiosError "Request failed with status code 401" None (Some 401)))
             (fresh_world new_HueSceneAccessory) I).
  reflexivity.
Defined.

(** ** More on poll ticks *)

Lemma length_loop_broadcasts (sceneMap : gmap string HueScene) (l : list SceneConfig) :
  (length (loop_broadcasts sceneMap l) <= length l)%nat.
Proof.
  induction l as [|sc l IH]; [reflexivity|].
  rewrite loop_broadcasts_cons. destruct (sceneMap !! cfg_id sc); simpl; lia.
Qed.

(** Setting entries whose key is not [i] leaves what a map has under
    [i]. *)
Lemma foldl_insert_lookup_ne (entries : list (string * HueScene))
    (m : gmap string HueScene) (i : string) :
  (forall e, e ∈ entries -> e.1 <> i) ->
  foldl (fun m e => <[e.1 := e.2]> m) m entries !! i = m !! i.
Proof.
  revert m. induction entries as [|e entries IH]; intros m Hne; [reflexivity|].
  simpl. rewrite IH.
  - apply lookup_insert_ne. apply Hne. apply list_elem_of_here.
  - intros e' Hin. apply Hne. apply list_elem_of_further. exact Hin.
Qed.

(** Of the scenes of the bridge's answer with one id, the map keeps
    the last. *)
Lemma bridge_map_last (before after : list HueScene) (s : HueScene) :
  (forall s', s' ∈ after -> scene_id s' <> scene_id s) ->
  bridge_map (before ++ s :: after) !! scene_id s = Some s.
Proof.
  intros Hlast. unfold bridge_map, new_Map.
  rewrite fmap_app, foldl_app, fmap_cons. simpl.
  rewrite foldl_insert_lookup_ne.
  - apply lookup_insert_eq.
  - intros e Hin. apply list_elem_of_fmap in Hin as (s' & -> & Hin). simpl.
    apply Hlast. exact Hin.
Qed.

(** X19. A poll tick never rejects and never keeps the busy flag:
    however [getScenes] settles, the tick completes normally with
    [isPolling] false and the client kept, having made that one call;
    it broadcasts at most one event per configured scene, each for an
    id that is configured and that the bridge returned. *)
Theorem poll_tick_always_completes (config : HueTransitionsPlatformConfig)
    (client : HueApiClient) (w0 : World ApiCall HueTransitionsPlatform)
    (reply : Settled (list HueScene)) (t : Z) :
  isPolling (this w0) = false ->
  apiClient (this w0) = Some client ->
  exists (w1 w2 : World ApiCall HueTransitionsPlatform)
         (k : Settled (list HueScene) -> task HueTransitionsPlatform unit)
         (bs : list (string * bool)),
    run (pollSceneStatus config) w0 = (w1, Pending (Call_getScenes client) k)
    /\ run (k reply) (at_time t w1) = (w2, Finished (Fulfilled tt))
    /\ isPolling (this w2) = false
    /\ apiClient (this w2) = Some client
    /\ requests (trace w2) = requests (trace w0) ++ [Call_getScenes client]
    /\ broadcasts (trace w2) = broadcasts (trace w0) ++ bs
    /\ (length bs <= length (scenes config))%nat
    /\ forall i b, (i, b) ∈ bs ->
         i ∈ cfg_id <$> scenes config
         /\ exists bridge, reply = Fulfilled bridge /\ i ∈ scene_id <$> bridge.
Proof.
  intros Hidle Hclient.
  destruct (poll_start config w0 client Hidle Hclient) as (k & Hrun & Hok & Herr).
  destruct reply as [bridge|e].
  - eexists _, _, k, (loop_broadcasts (bridge_map bridge) (scenes config)).
    split; [exact Hrun|]. split; [apply Hok|].
    split; [reflexivity|]. split; [exact Hclient|].
    split.
    { simpl. rewrite !requests_app, requests_emit_events. simpl.
      destruct (truthy (debug config)); simpl; rewrite ?app_nil_r; reflexivity. }
    split.
    { simpl. rewrite !broadcasts_app, broadcasts_emit_events. simpl.
      destruct (truthy (debug config)); simpl; rewrite ?app_nil_r; reflexivity. }
    split; [apply length_loop_broadcasts|].
    intros i b Hin.
    apply loop_broadcasts_sound in Hin as (sc & s & Hsc & Hid & Hlook & _).
    split.
    + apply list_elem_of_fmap. exists sc. auto.
    + exists bridge. split; [reflexivity|]. apply bridge_map_present. eauto.
  - eexists _, _, k, []. split; [exact Hrun|]. split; [apply Herr|].
    split; [reflexivity|]. split; [exact Hclient|].
    split; [simpl; rewrite !requests_app; simpl; rewrite ?app_nil_r; reflexivity|].
    split; [simpl; rewrite !broadcasts_app; simpl; rewrite ?app_nil_r; reflexivity|].
    split; [simpl; lia|].
    intros i b Hin. apply elem_of_nil in Hin. destruct Hin.
Qed.

Lemma poll_tick_always_completes_witness :
  exists (w1 w2 : World ApiCall HueTransitionsPlatform)
         (k : Settled (list HueScene) -> task HueTransitionsPlatform unit),
    run (pollSceneStatus config_AB) (fresh_world ready_platform)
    = (w1, Pending (Call_getScenes example_api) k)
    /\ run (k (Fulfilled bridge_BA)) (at_time 1700000000300 w1) = (w2, Finished (Fulfilled tt))
    /\ isPolling (this w2) = false
    /\ requests (trace w2) = [Call_getScenes example_api].
Proof.
  destruct (poll_tick_always_completes config_AB example_api (fresh_world ready_platform)
              (Fulfilled bridge_BA) 1700000000300 eq_refl eq_refl)
    as (w1 & w2 & k & bs & Hrun & Hok & Hidle & _ & Hreq & _).
  exists w1, w2, k. auto.
Defined.

(** X20. When the bridge's answer holds several scenes with one id, the
    tick reports the last of them: for a configured scene with that id
    it broadcasts the status of that last scene and no other. *)
Theorem poll_tick_last_duplicate_wins (config : HueTransitionsPlatformConfig)
    (client : HueApiClient) (w0 : World ApiCall HueTransitionsPlatform)
    (before after : list HueScene) (s : HueScene) (sc : SceneConfig) (t : Z) :
  isPolling (this w0) = false ->
  apiClient (this w0) = Some client ->
  sc ∈ scenes config ->
  cfg_id sc = scene_id s ->
  (forall s', s' ∈ after -> scene_id s' <> scene_id s) ->
  exists (w1 : World ApiCall HueTransitionsPlatform)
         (k : Settled (list HueScene) -> task HueTransitionsPlatform unit)
         (bs : list (string * bool)),
    run (pollSceneStatus config) w0 = (w1, Pending (Call_getScenes client) k)
    /\ broadcasts (trace (run (k (Fulfilled (before ++ s :: after))) (at_time t w1)).1)
       = broadcasts (trace w0) ++ bs
    /\ forall b, (scene_id s, b) ∈ bs <-> b = isActive_of s.
Proof.
  intros Hidle Hclient Hsc Hid Hlast.
  destruct (poll_start config w0 client Hidle Hclient) as (k & Hrun & Hok & _).
  pose proof (bridge_map_last before after s Hlast) as Hlook.
  eexists _, k, (loop_broadcasts (bridge_map (before ++ s :: after)) (scenes config)).
  split; [exact Hrun|]. split.
  - rewrite Hok. simpl. rewrite !broadcasts_app, broadcasts_emit_events. simpl.
    destruct (truthy (debug config)); simpl; rewrite ?app_nil_r; reflexivity.
  - intros b. split.
    + intros Hin. apply loop_broadcasts_sound in Hin as (sc' & s' & _ & _ & Hlook' & Hb).
      congruence.
    + intros ->. rewrite <- Hid. apply loop_broadcasts_complete; [exact Hsc|].
      rewrite Hid. exact Hlook.
Qed.

Lemma poll_tick_last_duplicate_wins_witness :
  exists (w1 : World ApiCall HueTransitionsPlatform)
         (k : Settled (list HueScene) -> task HueTransitionsPlatform unit)
         (bs : list (string * bool)),
    run (pollSceneStatus example_config) (fresh_world ready_platform)
    = (w1, Pending (Call_getScenes example_api) k)
    /\ broadcasts
         (trace (run (k (Fulfilled
                           [ {| scene_id := "scene-1"; metadata_name := "Test Scene";
                                status := Some {| active := static |} |};
                             {| scene_id := "scene-1"; metadata_name := "Test Scene";
                                status := Some {| active := inactive |} |} ]))
                   (at_time 1700000000300 w1)).1)
       = bs
    /\ ("scene-1", false) ∈ bs
    /\ ("scene-1", true) ∉ bs.
Proof.
  destruct (poll_tick_last_duplicate_wins example_config example_api
              (fresh_world ready_platform)
              [ {| scene_id := "scene-1"; metadata_name := "Test Scene";
                   status := Some {| active := static |} |} ]
              []
              {| scene_id := "scene-1"; metadata_name := "Test Scene";
                 status := Some {| active := inactive |} |}
              example_scene 1700000000300 eq_refl eq_refl)
    as (w1 & k & bs & Hrun & Hbs & Honly).
  - apply list_elem_of_here.
  - reflexivity.
  - intros s' Hin. apply elem_of_nil in Hin. destruct Hin.
  - exists w1, k, bs. split; [exact Hrun|]. split; [exact Hbs|]. split.
    + apply Honly. reflexivity.
    + intros Hin. apply Honly in Hin. discriminate.
Defined.

(** ** The timer of the poll loop *)

Section RunZoom.
Context {Sig : Type} {Ans : Sig -> Type} {S T : Type}.
Variable get : T -> S.
Variable set : S -> T -> T.
Hypothesis get_set : forall s t, get (set s t) = s.
Hypothesis set_set : forall s s' t, set s (set s' t) = set s t.
Hypothesis set_get : forall t, set (get t) t = t.

(** A method run on the larger object does to the part what it does on
    the part alone, and leaves the rest of the larger object. *)
Lemma run_zoom {A} (p : async Sig Ans S A) (w : World Sig T) :
  run (zoom get set p) w
  = (put_back set (this w) (run p (view get w)).1, zoom_susp get set (run p (view get w)).2).
Proof.
  revert w. induction p as [a|e|k IH|s k IH|k IH|e k IH|r k IH]; intros w; simpl.
  - unfold put_back, view. simpl. rewrite set_get. destruct w; reflexivity.
  - unfold put_back, view. simpl. rewrite set_get. destruct w; reflexivity.
  - apply IH.
  - rewrite IH. unfold put_back, view, with_this. simpl.
    rewrite get_set, set_set. reflexivity.
  - apply IH.
  - apply IH.
  - unfold put_back, view, record. simpl. rewrite set_get. destruct w; reflexivity.
Qed.
End RunZoom.

Lemma run_poll_tick (config : HueTransitionsPlatformConfig)
    (w : World ApiCall PollingPlatform) :
  run (poll_tick config) w
  = (put_back set_polled (this w) (run (pollSceneStatus config) (view polled w)).1,
     zoom_susp polled set_polled (run (pollSceneStatus config) (view polled w)).2).
Proof.
  unfold poll_tick. apply run_zoom.
  - reflexivity.
  - reflexivity.
  - intros [p i]. reflexivity.
Qed.

Lemma run_zoomed_poll {A} (p : task HueTransitionsPlatform A)
    (w : World ApiCall PollingPlatform) :
  run (zoom polled set_polled p) w
  = (put_back set_polled (this w) (run p (view polled w)).1,
     zoom_susp polled set_polled (run p (view polled w)).2).
Proof.
  apply run_zoom.
  - reflexivity.
  - reflexivity.
  - intros [q i]. reflexivity.
Qed.

Lemma validInterval_of_range (interval : Z) :
  MIN_INTERVAL <= validInterval_of interval <= MAX_INTERVAL.
Proof. unfold validInterval_of, MIN_INTERVAL, MAX_INTERVAL. lia. Qed.

Lemma validInterval_of_fixed (interval : Z) :
  validInterval_of interval = interval <-> MIN_INTERVAL <= interval <= MAX_INTERVAL.
Proof. unfold validInterval_of, MIN_INTERVAL, MAX_INTERVAL. lia. Qed.

(** [startPolling] without a timer: it logs, sets the timer and makes
    the initial poll. *)
Lemma startPolling_starts (config : HueTransitionsPlatformConfig)
    (config_pollingInterval : option Z) (w : World ApiCall PollingPlatform) :
  pollingInterval (this w) = None ->
  let interval := default DEFAULT_INTERVAL config_pollingInterval in
  run (startPolling config config_pollingInterval) w
  = run (poll_tick config)
      (extend (start_events interval)
         (with_this (set_pollingInterval (Some (validInterval_of interval)) (this w)) w)).
Proof.
  intros Hnone interval. unfold startPolling. cbn [run]. rewrite Hnone.
  cbv zeta. fold interval. unfold start_events.
  pose proof (validInterval_of_fixed interval) as Hfixed.
  remember (validInterval_of interval) as v eqn:Hv.
  destruct (decide (MIN_INTERVAL <= interval <= MAX_INTERVAL)) as [Hin|Hout].
  - apply Hfixed in Hin. rewrite Hin, Z.eqb_refl. simpl. reflexivity.
  - destruct (v =? interval) eqn:E.
    + apply Z.eqb_eq, Hfixed in E. contradiction.
    + simpl. unfold extend, record, with_this. simpl.
      rewrite <- app_assoc. reflexivity.
Qed.

(** [startPolling] with a timer does nothing. *)
Lemma startPolling_running (config : HueTransitionsPlatformConfig)
    (config_pollingInterval : option Z) (w : World ApiCall PollingPlatform) :
  pollingInterval (this w) <> None ->
  run (startPolling config config_pollingInterval) w = (w, Finished (Fulfilled tt)).
Proof.
  intros Hsome. unfold startPolling. simpl.
  destruct (pollingInterval (this w)); [reflexivity | contradiction].
Qed.

(** A firing of the timer while a tick is in flight, or without a
    client, does nothing. *)
Lemma poll_tick_skipped (config : HueTransitionsPlatformConfig)
    (w : World ApiCall PollingPlatform) :
  isPolling (polled (this w)) = true \/ apiClient (polled (this w)) = None ->
  run (poll_tick config) w = (w, Finished (Fulfilled tt)).
Proof.
  intros Hskip. rewrite run_poll_tick.
  rewrite (poll_skipped config (view polled w)) by exact Hskip.
  simpl. unfold put_back, view. simpl. destruct w as [[p i] c tr]. reflexivity.
Qed.

(** Otherwise it is a tick of [pollSceneStatus] on the platform, which
    leaves the timer alone. *)
Lemma poll_tick_start (config : HueTransitionsPlatformConfig)
    (w : World ApiCall PollingPlatform) (client : HueApiClient) :
  isPolling (polled (this w)) = false ->
  apiClient (polled (this w)) = Some client ->
  exists k : Settled (list HueScene) -> task PollingPlatform unit,
    run (poll_tick config) w
    = (record (Requested (Call_getScenes client))
         (with_this (set_polled (set_isPolling true (polled (this w))) (this w)) w),
       Pending (Call_getScenes client) k)
    /\ (forall bridge w',
          run (k (Fulfilled bridge)) w'
          = (with_this (set_polled (set_isPolling false (polled (this w'))) (this w'))
               (extend ((emit_event <$> loop_broadcasts (bridge_map bridge) (scenes config))
                        ++ (if truthy (debug config)
                            then [Did (Log LDebug "Scene status poll completed")]
                            else []))
                  w'),
             Finished (Fulfilled tt)))
    /\ (forall e w',
          run (k (Rejected e)) w'
          = (with_this (set_polled (set_isPolling false (polled (this w'))) (this w'))
               (record (Did (log_poll_failed e)) w'),
             Finished (Fulfilled tt))).
Proof.
  intros Hidle Hclient. rewrite run_poll_tick.
  destruct (poll_start config (view polled w) client Hidle Hclient) as (k & Hrun & Hok & Herr).
  rewrite Hrun. simpl.
  exists (fun x => zoom polled set_polled (k x)).
  split; [reflexivity|].
  split; intros; rewrite run_zoomed_poll; [rewrite Hok | rewrite Herr]; reflexivity.
Qed.

(** The timer that [startPolling] sets, and its log lines. *)
Lemma startPolling_sets_timer (config : HueTransitionsPlatformConfig)
    (config_pollingInterval : option Z) (w : World ApiCall PollingPlatform) :
  pollingInterval (this w) = None ->
  let interval := default DEFAULT_INTERVAL config_pollingInterval in
  exists poll_events : list (Event ApiCall),
    pollingInterval (this (run (startPolling config config_pollingInterval) w).1)
    = Some (validInterval_of interval)
    /\ trace (run (startPolling config config_pollingInterval) w).1
       = trace w ++ start_events interval ++ poll_events
    /\ (poll_events = []
        \/ exists client, poll_events = [Requested (Call_getScenes client)]).
Proof.
  intros Hnone interval.
  rewrite (startPolling_starts config config_pollingInterval w Hnone).
  fold interval.
  remember (extend (start_events interval)
              (with_this (set_pollingInterval (Some (validInterval_of interval)) (this w)) w))
    as w' eqn:Hw'.
  assert (trace w' = trace w ++ start_events interval) as Htrace by (rewrite Hw'; reflexivity).
  assert (pollingInterval (this w') = Some (validInterval_of interval)) as Htimer
    by (rewrite Hw'; reflexivity).
  destruct (isPolling (polled (this w'))) eqn:Hbusy.
  - rewrite poll_tick_skipped by (left; exact Hbusy).
    exists []. cbn [fst]. rewrite Htrace, app_nil_r. auto.
  - destruct (apiClient (polled (this w'))) as [client|] eqn:Hclient.
    + destruct (poll_tick_start config w' client Hbusy Hclient) as (k & Hrun & _).
      rewrite Hrun. exists [Requested (Call_getScenes client)].
      cbn [fst this trace record with_this pollingInterval set_polled].
      rewrite Htrace, <- app_assoc. split; [exact Htimer|]. eauto.
    + rewrite poll_tick_skipped by (right; exact Hclient).
      exists []. cbn [fst]. rewrite Htrace, app_nil_r. auto.
Qed.

(** X21. [startPolling] sets a timer whose period is the configured
    interval, 60000 when none is configured, brought into [60000,
    300000]: a smaller interval gives 60000, a larger one 300000. It
    logs one warning exactly when the interval was corrected, then the
    start line, and after these only the initial poll adds to the
    trace: nothing, or the one [getScenes] call. *)
Theorem startPolling_clamps_interval (config : HueTransitionsPlatformConfig)
    (config_pollingInterval : option Z) (w : World ApiCall PollingPlatform) :
  pollingInterval (this w) = None ->
  let interval := default 60000 config_pollingInterval in
  exists (v : Z) (poll_events : list (Event ApiCall)),
    pollingInterval (this (run (startPolling config config_pollingInterval) w).1) = Some v
    /\ 60000 <= v <= 300000
    /\ (60000 <= interval <= 300000 -> v = interval)
    /\ (interval < 60000 -> v = 60000)
    /\ (300000 < interval -> v = 300000)
    /\ trace (run (startPolling config config_pollingInterval) w).1
       = trace w
         ++ (if decide (60000 <= interval <= 300000)
             then []
             else [Did (log_interval_corrected interval v)])
         ++ [Did (log_polling_started v)]
         ++ poll_events
    /\ (poll_events = []
        \/ exists client, poll_events = [Requested (Call_getScenes client)]).
Proof.
  intros Hnone interval.
  destruct (startPolling_sets_timer config config_pollingInterval w Hnone)
    as (evs & Htimer & Htrace & Hevs).
  change (default DEFAULT_INTERVAL config_pollingInterval) with interval in *.
  exists (validInterval_of interval), evs.
  split; [exact Htimer|].
  assert (60000 <= validInterval_of interval <= 300000
          /\ (60000 <= interval <= 300000 -> validInterval_of interval = interval)
          /\ (interval < 60000 -> validInterval_of interval = 60000)
          /\ (300000 < interval -> validInterval_of interval = 300000)) as (Hv1 & Hv2 & Hv3 & Hv4).
  { unfold validInterval_of, MIN_INTERVAL, MAX_INTERVAL. lia. }
  split; [exact Hv1|]. split; [exact Hv2|]. split; [exact Hv3|]. split; [exact Hv4|].
  split; [|exact Hevs].
  rewrite Htrace. unfold start_events, MIN_INTERVAL, MAX_INTERVAL.
  rewrite <- !app_assoc. reflexivity.
Qed.

Lemma startPolling_clamps_interval_witness :
  pollingInterval (this (run (startPolling example_config (Some 30000))
                           (fresh_world {| polled := ready_platform;
                                           pollingInterval := None |})).1)
  = Some 60000
  /\ pollingInterval (this (run (startPolling example_config (Some 500000))
                              (fresh_world {| polled := ready_platform;
                                              pollingInterval := None |})).1)
     = Some 300000.
Proof.
  split.
  - destruct (startPolling_clamps_interval example_config (Some 30000)
                (fresh_world {| polled := ready_platform; pollingInterval := None |}) eq_refl)
      as (v & evs & Hv & _ & _ & Hlow & _).
    rewrite Hv. f_equal. apply Hlow. simpl. lia.
  - destruct (startPolling_clamps_interval example_config (Some 500000)
                (fresh_world {| polled := ready_platform; pollingInterval := None |}) eq_refl)
      as (v & evs & Hv & _ & _ & _ & Hhigh & _).
    rewrite Hv. f_equal. apply Hhigh. simpl. lia.
Defined.

(** X22. [startPolling] is idempotent: once it has set the timer, a
    second call changes nothing, neither the timer nor the log, and
    makes no second initial poll. *)
Theorem startPolling_idempotent (config : HueTransitionsPlatformConfig)
    (first second : option Z) (w : World ApiCall PollingPlatform) :
  pollingInterval (this w) = None ->
  let w1 := (run (startPolling config first) w).1 in
  pollingInterval (this w1) <> None
  /\ run (startPolling config second) w1 = (w1, Finished (Fulfilled tt)).
Proof.
  intros Hnone w1.
  destruct (startPolling_sets_timer config first w Hnone) as (evs & Hv & _).
  fold w1 in Hv.
  assert (pollingInterval (this w1) <> None) as Hset by (rewrite Hv; discriminate).
  split; [exact Hset|]. apply startPolling_running. exact Hset.
Qed.

Lemma startPolling_idempotent_witness :
  let w1 := (run (startPolling example_config (Some 30000))
               (fresh_world {| polled := ready_platform; pollingInterval := None |})).1 in
  run (startPolling example_config (Some 120000)) w1 = (w1, Finished (Fulfilled tt)).
Proof.
  apply (startPolling_idempotent example_config (Some 30000) (Some 120000)
           (fresh_world {| polled := ready_platform; pollingInterval := None |}) eq_refl).
Defined.

Lemma requests_start_events (interval : Z) : requests (start_events interval) = [].
Proof. unfold start_events. destruct (decide _); reflexivity. Qed.

Lemma broadcasts_start_events (interval : Z) : broadcasts (start_events interval) = [].
Proof. unfold start_events. destruct (decide _); reflexivity. Qed.

(** X18. Without a client the poll loop runs idle: a tick does nothing,
    [startPolling] still logs and sets the timer but makes no call, and
    every firing of the timer after it leaves everything as it is.
    What [startPolling] adds to the log is the line that polling starts,
    after a warning when the interval had to be corrected, and nothing
    else; the timer is set with the corrected interval and the rest of
    the platform and the clock are untouched. *)
Theorem polling_without_client_is_idle (config : HueTransitionsPlatformConfig)
    (config_pollingInterval : option Z) (p : World ApiCall HueTransitionsPlatform)
    (w : World ApiCall PollingPlatform) :
  apiClient (this p) = None ->
  pollingInterval (this w) = None ->
  apiClient (polled (this w)) = None ->
  run (pollSceneStatus config) p = (p, Finished (Fulfilled tt))
  /\ exists w1 : World ApiCall PollingPlatform,
       run (startPolling config config_pollingInterval) w = (w1, Finished (Fulfilled tt))
       /\ pollingInterval (this w1) <> None
       /\ requests (trace w1) = requests (trace w)
       /\ run (poll_tick config) w1 = (w1, Finished (Fulfilled tt))
       /\ trace w1
          = trace w ++ start_events (default DEFAULT_INTERVAL config_pollingInterval)
       /\ broadcasts (trace w1) = broadcasts (trace w)
       /\ pollingInterval (this w1)
          = Some (validInterval_of (default DEFAULT_INTERVAL config_pollingInterval))
       /\ polled (this w1) = polled (this w)
       /\ clock w1 = clock w.
Proof.
  intros Hnone Htimer Hclient.
  split; [apply poll_skipped; right; exact Hnone|].
  rewrite (startPolling_starts config config_pollingInterval w Htimer).
  eexists. split; [apply poll_tick_skipped; right; exact Hclient|].
  split; [discriminate|].
  split; [simpl; rewrite requests_app, requests_start_events; apply app_nil_r|].
  split; [apply poll_tick_skipped; right; exact Hclient|].
  split; [reflexivity|].
  split; [simpl; rewrite broadcasts_app, broadcasts_start_events; apply app_nil_r|].
  repeat split.
Qed.

Lemma polling_without_client_is_idle_witness :
  exists w1 : World ApiCall PollingPlatform,
    run (startPolling example_config None)
      (fresh_world {| polled := {| apiClient := None; isPolling := false |};
                      pollingInterval := None |})
    = (w1, Finished (Fulfilled tt))
    /\ pollingInterval (this w1) = Some 60000
    /\ trace w1 = [Did (Log LInfo "Starting scene status polling every 60 seconds")]
    /\ run (poll_tick example_config) w1 = (w1, Finished (Fulfilled tt)).
Proof.
  destruct (polling_without_client_is_idle example_config None
              (fresh_world {| apiClient := None; isPolling := false |})
              (fresh_world {| polled := {| apiClient := None; isPolling := false |};
                              pollingInterval := None |}) eq_refl eq_refl eq_refl)
    as (_ & w1 & Hrun & _ & _ & Htick & Htrace & _ & Htimer & _).
  exists w1. split; [exact Hrun|]. split; [exact Htimer|]. split; [|exact Htick].
  rewrite Htrace. vm_compute. reflexivity.
Defined.

(** The same with an interval out of range: the warning comes first. *)
Lemma polling_without_client_corrected_interval :
  trace (run (startPolling example_config (Some 1500))
           (fresh_world {| polled := {| apiClient := None; isPolling := false |};
                           pollingInterval := None |})).1
  = [Did (Log LWarn ("Polling interval 1500ms is outside valid range "
                       +:+ "(60000-300000ms), using 60000ms"));
     Did (Log LInfo "Starting scene status polling every 60 seconds")].
Proof. vm_compute. reflexivity. Qed.

(** X23. With a client and no tick in flight, [startPolling] polls at
    once: it returns with the one [getScenes] call made and the busy
    flag set; when that call settles the tick completes, clears the
    flag and leaves the timer, so that the next firing of the timer
    polls again. *)
Theorem startPolling_polls_at_once (config : HueTransitionsPlatformConfig)
    (config_pollingInterval : option Z) (client : HueApiClient)
    (w : World ApiCall PollingPlatform) (reply : Settled (list HueScene)) (t : Z) :
  pollingInterval (this w) = None ->
  isPolling (polled (this w)) = false ->
  apiClient (polled (this w)) = Some client ->
  exists (w1 w2 : World ApiCall PollingPlatform)
         (k k' : Settled (list HueScene) -> task PollingPlatform unit),
    run (startPolling config config_pollingInterval) w
    = (w1, Pending (Call_getScenes client) k)
    /\ isPolling (polled (this w1)) = true
    /\ requests (trace w1) = requests (trace w) ++ [Call_getScenes client]
    /\ run (k reply) (at_time t w1) = (w2, Finished (Fulfilled tt))
    /\ isPolling (polled (this w2)) = false
    /\ pollingInterval (this w2) = pollingInterval (this w1)
    /\ pollingInterval (this w2) <> None
    /\ (run (poll_tick config) w2).2 = Pending (Call_getScenes client) k'.
Proof.
  intros Hnone Hidle Hclient.
  rewrite (startPolling_starts config config_pollingInterval w Hnone).
  set (interval := default DEFAULT_INTERVAL config_pollingInterval).
  remember (extend (start_events interval)
              (with_this (set_pollingInterval (Some (validInterval_of interval)) (this w)) w))
    as w' eqn:Hw'.
  assert (isPolling (polled (this w')) = false) as Hidle' by (rewrite Hw'; exact Hidle).
  assert (apiClient (polled (this w')) = Some client) as Hclient'
    by (rewrite Hw'; exact Hclient).
  assert (pollingInterval (this w') <> None) as Htimer by (rewrite Hw'; discriminate).
  assert (requests (trace w') = requests (trace w)) as Hreq.
  { rewrite Hw'. simpl. rewrite requests_app, requests_start_events. apply app_nil_r. }
  destruct (poll_tick_start config w' client Hidle' Hclient') as (k & Hrun & Hok & Herr).
  rewrite Hrun.
  assert (exists w2 : World ApiCall PollingPlatform,
            run (k reply)
              (at_time t (record (Requested (Call_getScenes client))
                            (with_this (set_polled (set_isPolling true (polled (this w')))
                                          (this w')) w')))
            = (w2, Finished (Fulfilled tt))
            /\ isPolling (polled (this w2)) = false
            /\ pollingInterval (this w2) = pollingInterval (this w')
            /\ apiClient (polled (this w2)) = Some client)
    as (w2 & Hsettle & Hidle2 & Htimer2 & Hclient2).
  { destruct reply as [bridge|e]; [rewrite Hok | rewrite Herr];
      eexists; (split; [reflexivity|]); simpl; auto. }
  destruct (poll_tick_start config w2 client Hidle2 Hclient2) as (k' & Hrun' & _).
  eexists _, w2, k, k'. split; [reflexivity|].
  split; [reflexivity|].
  split; [simpl; rewrite requests_app, Hreq; reflexivity|].
  split; [exact Hsettle|].
  split; [exact Hidle2|].
  split; [rewrite Htimer2; reflexivity|].
  split; [rewrite Htimer2; exact Htimer|].
  rewrite Hrun'. reflexivity.
Qed.

Lemma startPolling_polls_at_once_witness :
  exists (w1 w2 : World ApiCall PollingPlatform)
         (k : Settled (list HueScene) -> task PollingPlatform unit),
    run (startPolling example_config None)
      (fresh_world {| polled := ready_platform; pollingInterval := None |})
    = (w1, Pending (Call_getScenes example_api) k)
    /\ requests (trace w1) = [Call_getScenes example_api]
    /\ run (k (Rejected (PlainError "Network error"))) (at_time 1700000000100 w1)
       = (w2, Finished (Fulfilled tt))
    /\ isPolling (polled (this w2)) = false.
Proof.
  destruct (startPolling_polls_at_once example_config None example_api
              (fresh_world {| polled := ready_platform; pollingInterval := None |})
              (Rejected (PlainError "Network error")) 1700000000100 eq_refl eq_refl eq_refl)
    as (w1 & w2 & k & k' & Hrun & _ & Hreq & Hsettle & Hidle & _).
  exists w1, w2, k. auto.
Defined.

(** X24. [stopPolling] clears a running timer, with one line in the
    debug log, and does nothing without one; it never touches the
    platform's client or busy flag, and [startPolling] after it sets a
    timer again. *)
Theorem stopPolling_clears_timer (config : HueTransitionsPlatformConfig)
    (config_pollingInterval : option Z) (w : World ApiCall PollingPlatform) :
  (pollingInterval (this w) <> None ->
   run stopPolling w
   = (record (Did (Log LDebug "Stopped scene status polling"))
        (with_this (set_pollingInterval None (this w)) w),
      Finished (Fulfilled tt)))
  /\ (pollingInterval (this w) = None -> run stopPolling w = (w, Finished (Fulfilled tt)))
  /\ pollingInterval (this (run stopPolling w).1) = None
  /\ polled (this (run stopPolling w).1) = polled (this w)
  /\ requests (trace (run stopPolling w).1) = requests (trace w)
  /\ pollingInterval
       (this (run (startPolling config config_pollingInterval) (run stopPolling w).1).1)
     = Some (validInterval_of (default DEFAULT_INTERVAL config_pollingInterval)).
Proof.
  assert (pollingInterval (this (run stopPolling w).1) = None) as Hcleared.
  { unfold stopPolling. simpl. destruct (pollingInterval (this w)) eqn:E; [reflexivity|exact E]. }
  split; [|split; [|split; [exact Hcleared|split; [|split]]]].
  - intros Hset. unfold stopPolling. simpl.
    destruct (pollingInterval (this w)); [reflexivity | contradiction].
  - intros Hnone. unfold stopPolling. simpl. rewrite Hnone. reflexivity.
  - unfold stopPolling. simpl. destruct (pollingInterval (this w)); reflexivity.
  - unfold stopPolling. simpl. destruct (pollingInterval (this w)); simpl; [|reflexivity].
    rewrite requests_app. apply app_nil_r.
  - destruct (startPolling_sets_timer config config_pollingInterval _ Hcleared)
      as (evs & Htimer & _).
    exact Htimer.
Qed.

Lemma stopPolling_clears_timer_witness :
  run stopPolling
    (fresh_world (Sig:=ApiCall) {| polled := ready_platform; pollingInterval := Some 60000 |})
  = (record (Did (Log LDebug "Stopped scene status polling"))
       (fresh_world {| polled := ready_platform; pollingInterval := None |}),
     Finished (Fulfilled tt)).
Proof.
  apply (stopPolling_clears_timer example_config None
           (fresh_world {| polled := ready_platform; pollingInterval := Some 60000 |})).
  discriminate.
Defined.

(** X25. Stopping does not cancel a tick in flight: after
    [stopPolling] the busy flag is still set, a [startPolling] then
    sets the timer but its initial poll is skipped, with no second
    [getScenes] call, and the tick in flight still broadcasts when its
    call resolves. *)
Theorem stopPolling_keeps_tick_in_flight (config : HueTransitionsPlatformConfig)
    (config_pollingInterval : option Z) (client : HueApiClient)
    (w : World ApiCall PollingPlatform) (bridge : list HueScene) (t : Z) :
  pollingInterval (this w) = None ->
  isPolling (polled (this w)) = false ->
  apiClient (polled (this w)) = Some client ->
  exists (w1 w2 w3 w4 : World ApiCall PollingPlatform)
         (k : Settled (list HueScene) -> task PollingPlatform unit),
    run (startPolling config config_pollingInterval) w
    = (w1, Pending (Call_getScenes client) k)
    /\ run stopPolling w1 = (w2, Finished (Fulfilled tt))
    /\ pollingInterval (this w2) = None
    /\ isPolling (polled (this w2)) = true
    /\ run (startPolling config config_pollingInterval) w2 = (w3, Finished (Fulfilled tt))
    /\ pollingInterval (this w3) <> None
    /\ requests (trace w3) = requests (trace w) ++ [Call_getScenes client]
    /\ run (k (Fulfilled bridge)) (at_time t w3) = (w4, Finished (Fulfilled tt))
    /\ broadcasts (trace w4)
       = broadcasts (trace w) ++ loop_broadcasts (bridge_map bridge) (scenes config)
    /\ isPolling (polled (this w4)) = false.
Proof.
  intros Hnone Hidle Hclient.
  rewrite (startPolling_starts config config_pollingInterval w Hnone).
  set (interval := default DEFAULT_INTERVAL config_pollingInterval).
  match goal with
  | |- context [run (poll_tick config) ?w'] =>
      destruct (poll_tick_start config w' client Hidle Hclient) as (k & Hrun & Hok & _)
  end.
  eexists _, _, _, _, k. split; [exact Hrun|].
  split; [reflexivity|]. split; [reflexivity|]. split; [reflexivity|].
  split.
  { rewrite startPolling_starts by reflexivity.
    apply poll_tick_skipped. left. reflexivity. }
  split; [discriminate|].
  split.
  { simpl. rewrite !requests_app, !requests_start_events. simpl.
    rewrite !app_nil_r. reflexivity. }
  split; [apply Hok|].
  split; [|reflexivity].
  simpl. rewrite !broadcasts_app, !broadcasts_start_events, broadcasts_emit_events. simpl.
  destruct (truthy (debug config)); simpl; rewrite ?app_nil_r; reflexivity.
Qed.

Lemma stopPolling_keeps_tick_in_flight_witness :
  exists (w1 w2 w3 w4 : World ApiCall PollingPlatform)
         (k : Settled (list HueScene) -> task PollingPlatform unit),
    run (startPolling config_AB None)
      (fresh_world {| polled := ready_platform; pollingInterval := None |})
    = (w1, Pending (Call_getScenes example_api) k)
    /\ run stopPolling w1 = (w2, Finished (Fulfilled tt))
    /\ run (startPolling config_AB None) w2 = (w3, Finished (Fulfilled tt))
    /\ requests (trace w3) = [Call_getScenes example_api]
    /\ run (k (Fulfilled bridge_BA)) (at_time 1700000000400 w3) = (w4, Finished (Fulfilled tt))
    /\ broadcasts (trace w4) = [("A", false); ("B", true)].
Proof.
  destruct (stopPolling_keeps_tick_in_flight config_AB None example_api
              (fresh_world {| polled := ready_platform; pollingInterval := None |})
              bridge_BA 1700000000400 eq_refl eq_refl eq_refl)
    as (w1 & w2 & w3 & w4 & k & Hrun & Hstop & _ & _ & Hagain & _ & Hreq & Hk & Hbs & _).
  exists w1, w2, w3, w4, k.
  split; [exact Hrun|]. split; [exact Hstop|]. split; [exact Hagain|].
  split; [exact Hreq|]. split; [exact Hk|].
  rewrite Hbs. vm_compute. reflexivity.
Defined.

(** ** Bootstrapping the client *)

Lemma truthy_text_Some (s : option string) :
  truthy_text s = true -> exists t, s = Some t /\ t <> EmptyString /\ text_of s = t.
Proof.
  destruct s as [[|a t]|]; simpl; try discriminate.
  intros _. eexists. split; [reflexivity|]. split; [discriminate | reflexivity].
Qed.

(** X26. Without an API key [initializeApiClient] creates no client and
    asks nothing of the bridge: with a bridge address configured it
    only logs the guidance, whose command names that address, and
    resolves. *)
Theorem initializeApiClient_without_key (w : World BootCall PlatformBoot) :
  truthy_text (config_bridgeIp (this w)) = true ->
  truthy_text (config_apiKey (this w)) = false ->
  run initializeApiClient w
  = (extend (Did <$> log_key_guidance (config_bridgeIp (this w))) w, Finished (Fulfilled tt))
  /\ this (run initializeApiClient w).1 = this w
  /\ requests (trace (run initializeApiClient w).1) = requests (trace w).
Proof.
  intros Hip Hkey.
  assert (run initializeApiClient w
          = (extend (Did <$> log_key_guidance (config_bridgeIp (this w))) w,
             Finished (Fulfilled tt))) as Hrun.
  { unfold initializeApiClient, connect_client. simpl. rewrite Hip. simpl.
    rewrite Hkey. simpl. unfold extend, record. simpl.
    rewrite <- !app_assoc. reflexivity. }
  rewrite Hrun. split; [reflexivity|]. split; [reflexivity|].
  simpl. rewrite requests_app. apply app_nil_r.
Qed.

Lemma initializeApiClient_without_key_witness :
  this (run initializeApiClient
          (fresh_world (Sig:=BootCall)
             {| config_bridgeIp := Some "192.168.1.100"; config_apiKey := None;
                boot_apiClient := None |})).1
  = {| config_bridgeIp := Some "192.168.1.100"; config_apiKey := None;
       boot_apiClient := None |}.
Proof.
  apply (initializeApiClient_without_key
           (fresh_world {| config_bridgeIp := Some "192.168.1.100"; config_apiKey := None;
                           boot_apiClient := None |})); reflexivity.
Defined.

(** X27. With an address and a key [initializeApiClient] creates the
    client for them and probes the connection once; it never rejects,
    and it leaves the client in place exactly when the probe returns
    [true]: a [false] probe and a rejected one both reset [apiClient]
    to null. *)
Theorem initializeApiClient_connects (w : World BootCall PlatformBoot)
    (bridgeIp apiKey : string) :
  config_bridgeIp (this w) = Some bridgeIp ->
  config_apiKey (this w) = Some apiKey ->
  bridgeIp <> EmptyString ->
  apiKey <> EmptyString ->
  let client := new_HueApiClient bridgeIp apiKey in
  exists k : Settled bool -> async BootCall BootResult PlatformBoot unit,
    run initializeApiClient w
    = (record (Requested (Call_testConnection client))
         (with_this (set_boot_apiClient (Some client) (this w)) w),
       Pending (Call_testConnection client) k)
    /\ (forall w',
          run (k (Fulfilled true)) w'
          = (record (Did (Log LInfo "Successfully connected to Hue bridge")) w',
             Finished (Fulfilled tt)))
    /\ (forall w',
          run (k (Fulfilled false)) w'
          = (with_this (set_boot_apiClient None (this w'))
               (record (Did (Log LError
                               "Failed to connect to Hue bridge - please check bridge IP and API key"))
                  w'),
             Finished (Fulfilled tt)))
    /\ (forall e w',
          run (k (Rejected e)) w'
          = (with_this (set_boot_apiClient None (this w'))
               (record (Did (LogWith LError "Failed to initialize API client:" e)) w'),
             Finished (Fulfilled tt))).
Proof.
  intros Hip Hkey Hip' Hkey' client.
  unfold initializeApiClient, connect_client. simpl. rewrite Hip.
  destruct bridgeIp as [|a ip]; [contradiction|]. simpl. rewrite Hkey.
  destruct apiKey as [|b key]; [contradiction|]. simpl.
  rewrite ?Hip, ?Hkey. simpl.
  eexists. split; [reflexivity|].
  split; [|split]; intros; reflexivity.
Qed.

Lemma initializeApiClient_connects_witness :
  exists k : Settled bool -> async BootCall BootResult PlatformBoot unit,
    (run initializeApiClient
       (fresh_world {| config_bridgeIp := Some "192.168.1.100";
                       config_apiKey := Some "test-api-key";
                       boot_apiClient := None |})).2
    = Pending (Call_testConnection example_api) k
    /\ boot_apiClient
         (this (run (k (Fulfilled false))
                  (fresh_world {| config_bridgeIp := Some "192.168.1.100";
                                  config_apiKey := Some "test-api-key";
                                  boot_apiClient := Some example_api |})).1)
       = None.
Proof.
  destruct (initializeApiClient_connects
              (fresh_world {| config_bridgeIp := Some "192.168.1.100";
                              config_apiKey := Some "test-api-key";
                              boot_apiClient := None |})
              "192.168.1.100" "test-api-key" eq_refl eq_refl)
    as (k & Hrun & _ & Hfalse & _); [discriminate | discriminate |].
  exists k. split; [rewrite Hrun; reflexivity|].
  rewrite Hfalse. reflexivity.
Defined.

(** X28. Without a bridge address [initializeApiClient] discovers: it
    logs and calls [discoverBridges], whatever the key.  An empty answer
    ends it with two errors in the log, no address, no client and no
    further call.  A non-empty answer makes the first bridge's address
    the configured one, whatever the other bridges, and logs it; then,
    without a key, the guidance is logged with that address in its
    command and the method resolves with no client and no call; with a
    key, the client for that address and key is stored and probed once,
    and the method resolves whatever the probe gives, keeping the
    client exactly when the probe returns [true].  A rejected discovery
    is logged and leaves no client.  In no case does the method
    reject. *)
Theorem initializeApiClient_discovers (w : World BootCall PlatformBoot) :
  truthy_text (config_bridgeIp (this w)) = false ->
  exists k : Settled (list HueBridgeDiscoveryResponse)
             -> async BootCall BootResult PlatformBoot unit,
    run initializeApiClient w
    = (record (Requested Call_discoverBridges)
         (record (Did (Log LInfo "Bridge IP not configured - attempting auto-discovery..."))
            w),
       Pending Call_discoverBridges k)
    /\ (forall w',
          run (k (Fulfilled [])) w'
          = (extend [Did (Log LError "✗ Auto-discovery failed: No Hue bridges found on network");
                     Did (Log LError
                            "Please manually configure your bridge IP address in the plugin settings")]
               w',
             Finished (Fulfilled tt)))
    /\ (forall first rest w',
          truthy_text (config_apiKey (this w')) = false ->
          run (k (Fulfilled (first :: rest))) w'
          = (extend (Did (Log LInfo ("✓ Auto-discovery successful! Found Hue bridge at "
                                       +:+ internalipaddress first))
                     :: (Did <$> log_key_guidance (Some (internalipaddress first))))
               (with_this (set_config_bridgeIp (Some (internalipaddress first)) (this w')) w'),
             Finished (Fulfilled tt)))
    /\ (forall first rest apiKey w',
          config_apiKey (this w') = Some apiKey ->
          apiKey <> EmptyString ->
          let client := new_HueApiClient (internalipaddress first) apiKey in
          exists k' : Settled bool -> async BootCall BootResult PlatformBoot unit,
            run (k (Fulfilled (first :: rest))) w'
            = (record (Requested (Call_testConnection client))
                 (with_this
                    {| config_bridgeIp := Some (internalipaddress first);
                       config_apiKey := Some apiKey;
                       boot_apiClient := Some client |}
                    (record (Did (Log LInfo
                                    ("✓ Auto-discovery successful! Found Hue bridge at "
                                       +:+ internalipaddress first))) w')),
               Pending (Call_testConnection client) k')
            /\ (forall w'',
                  run (k' (Fulfilled true)) w''
                  = (record (Did (Log LInfo "Successfully connected to Hue bridge")) w'',
                     Finished (Fulfilled tt)))
            /\ (forall w'',
                  run (k' (Fulfilled false)) w''
                  = (with_this (set_boot_apiClient None (this w''))
                       (record (Did (Log LError
                                       "Failed to connect to Hue bridge - please check bridge IP and API key"))
                          w''),
                     Finished (Fulfilled tt)))
            /\ (forall e w'',
                  run (k' (Rejected e)) w''
                  = (with_this (set_boot_apiClient None (this w''))
                       (record (Did (LogWith LError "Failed to initialize API client:" e)) w''),
                     Finished (Fulfilled tt))))
    /\ (forall e w',
          run (k (Rejected e)) w'
          = (with_this (set_boot_apiClient None (this w'))
               (record (Did (LogWith LError "Failed to initialize API client:" e)) w'),
             Finished (Fulfilled tt))).
Proof.
  intros Hip.
  unfold initializeApiClient. simpl. rewrite Hip. simpl.
  eexists. split; [reflexivity|].
  split; [|split; [|split]].
  - intros w'. simpl. unfold extend, record. simpl. rewrite <- app_assoc. reflexivity.
  - intros first rest w' Hkeyw. unfold connect_client. simpl. rewrite Hkeyw. simpl.
    unfold extend, record, with_this. simpl. rewrite <- !app_assoc. reflexivity.
  - intros first rest apiKey w' Hkeyw Hkey'. unfold connect_client. simpl.
    rewrite Hkeyw. destruct apiKey as [|b key]; [contradiction|]. simpl.
    rewrite ?Hkeyw. simpl. eexists. split.
    + unfold record, with_this, set_boot_apiClient, set_config_bridgeIp. simpl.
      rewrite ?Hkeyw. reflexivity.
    + split; [|split]; intros; reflexivity.
  - intros. reflexivity.
Qed.

Lemma initializeApiClient_discovers_witness :
  exists k : Settled (list HueBridgeDiscoveryResponse)
             -> async BootCall BootResult PlatformBoot unit,
    (run initializeApiClient
       (fresh_world {| config_bridgeIp := None; config_apiKey := Some "test-api-key";
                       boot_apiClient := None |})).2
    = Pending Call_discoverBridges k
    /\ this (run (k (Fulfilled []))
               (fresh_world {| config_bridgeIp := None; config_apiKey := Some "test-api-key";
                               boot_apiClient := None |})).1
       = {| config_bridgeIp := None; config_apiKey := Some "test-api-key";
            boot_apiClient := None |}
    /\ this (run (k (Fulfilled [ {| bridge_id := "001788fffe100491";
                                    internalipaddress := "192.168.1.100";
                                    port := Some 443 |} ]))
               (fresh_world {| config_bridgeIp := None; config_apiKey := None;
                               boot_apiClient := None |})).1
       = {| config_bridgeIp := Some "192.168.1.100"; config_apiKey := None;
            boot_apiClient := None |}
    /\ exists k' : Settled bool -> async BootCall BootResult PlatformBoot unit,
         (run (k (Fulfilled [ {| bridge_id := "001788fffe100491";
                                 internalipaddress := "192.168.1.100";
                                 port := Some 443 |} ]))
            (fresh_world {| config_bridgeIp := None; config_apiKey := Some "test-api-key";
                            boot_apiClient := None |})).2
         = Pending (Call_testConnection example_api) k'
         /\ this (run (k' (Fulfilled true))
                    (fresh_world {| config_bridgeIp := Some "192.168.1.100";
                                    config_apiKey := Some "test-api-key";
                                    boot_apiClient := Some example_api |})).1
            = {| config_bridgeIp := Some "192.168.1.100";
                 config_apiKey := Some "test-api-key";
                 boot_apiClient := Some example_api |}.
Proof.
  destruct (initializeApiClient_discovers
              (fresh_world {| config_bridgeIp := None; config_apiKey := Some "test-api-key";
                              boot_apiClient := None |})
              eq_refl)
    as (k & Hrun & Hempty & Hnokey & Hkey & _).
  exists k. split; [rewrite Hrun; reflexivity|].
  split; [rewrite Hempty; reflexivity|].
  split; [rewrite Hnokey; reflexivity|].
  destruct (Hkey {| bridge_id := "001788fffe100491"; internalipaddress := "192.168.1.100";
                    port := Some 443 |} [] "test-api-key"
              (fresh_world {| config_bridgeIp := None; config_apiKey := Some "test-api-key";
                              boot_apiClient := None |})
              eq_refl ltac:(discriminate))
    as (k' & Hrun' & Htrue & _).
  exists k'. split; [rewrite Hrun'; reflexivity|].
  rewrite Htrue. reflexivity.
Defined.

(** X29. [initializeApiClient] against the bridge, with an address and
    a key: one GET to [/resource] on the new client, and afterwards
    [apiClient] is that client when the exchange succeeded and null
    when it failed, whatever the failure; it never rejects. *)
Theorem initializeApiClient_linked_with_client (w : World ProbeReq PlatformBoot)
    (bridgeIp apiKey : string) (reply : Settled unit) (t : Z) :
  config_bridgeIp (this w) = Some bridgeIp ->
  config_apiKey (this w) = Some apiKey ->
  bridgeIp <> EmptyString ->
  apiKey <> EmptyString ->
  let client := new_HueApiClient bridgeIp apiKey in
  exists (w1 w2 : World ProbeReq PlatformBoot)
         (k : Settled unit -> probe PlatformBoot unit),
    run (link_with (@boot_method PlatformBoot) initializeApiClient) w
    = (w1, Pending (ClientGetResource client "/resource") k)
    /\ requests (trace w1) = requests (trace w) ++ [ClientGetResource client "/resource"]
    /\ run (k reply) (at_time t w1) = (w2, Finished (Fulfilled tt))
    /\ requests (trace w2) = requests (trace w1)
    /\ boot_apiClient (this w2)
       = match reply with
         | Fulfilled _ => Some client
         | Rejected _ => None
         end.
Proof.
  intros Hip Hkey Hip' Hkey' client.
  unfold initializeApiClient, connect_client. simpl. rewrite Hip.
  destruct bridgeIp as [|a ip]; [contradiction|]. simpl. rewrite Hkey.
  destruct apiKey as [|b key]; [contradiction|]. simpl.
  rewrite ?Hip, ?Hkey. simpl.
  destruct reply as [[]|e]; eexists _, _, _; (split; [reflexivity|]);
    (split; [simpl; rewrite requests_app; reflexivity|]);
    simpl; (split; [reflexivity|]); (split; [|reflexivity]);
    simpl; rewrite !requests_app; simpl; rewrite ?app_nil_r; reflexivity.
Qed.

Lemma initializeApiClient_linked_with_client_witness :
  exists (w1 w2 : World ProbeReq PlatformBoot)
         (k : Settled unit -> probe PlatformBoot unit),
    run (link_with (@boot_method PlatformBoot) initializeApiClient)
      (fresh_world {| config_bridgeIp := Some "192.168.1.100";
                      config_apiKey := Some "test-api-key";
                      boot_apiClient := None |})
    = (w1, Pending (ClientGetResource example_api "/resource") k)
    /\ run (k (Rejected (AxiosError "connect ECONNREFUSED" (Some "ECONNREFUSED") None)))
         (at_time 1700000000100 w1)
       = (w2, Finished (Fulfilled tt))
    /\ boot_apiClient (this w2) = None.
Proof.
  destruct (initializeApiClient_linked_with_client
              (fresh_world {| config_bridgeIp := Some "192.168.1.100";
                              config_apiKey := Some "test-api-key";
                              boot_apiClient := None |})
              "192.168.1.100" "test-api-key"
              (Rejected (AxiosError "connect ECONNREFUSED" (Some "ECONNREFUSED") None))
              1700000000100 eq_refl eq_refl)
    as (w1 & w2 & k & Hrun & _ & Hsettle & _ & Hclient); [discriminate | discriminate |].
  exists w1, w2, k. auto.
Defined.

(** ** The scene selector of the UI server *)

(** X30. [getAvailableScenes] never rejects. Without an address or
    without a key it returns the empty list and asks nothing; otherwise
    it calls [getScenes] on a client for them and returns the id and
    name of every scene, in the bridge's order; when the call rejects,
    and against the bridge when the answer has errors, it logs the
    error and returns the empty list. *)
Theorem getAvailableScenes_never_rejects (bridgeIp apiKey : option string)
    (w : World ApiCall unit) (wh : World HttpReq unit) :
  (truthy_text bridgeIp = false \/ truthy_text apiKey = false ->
   run (getAvailableScenes bridgeIp apiKey) w = (w, Finished (Fulfilled []))
   /\ run (link (getAvailableScenes bridgeIp apiKey)) wh = (wh, Finished (Fulfilled [])))
  /\ (truthy_text bridgeIp = true ->
      truthy_text apiKey = true ->
      let client := new_HueApiClient (text_of bridgeIp) (text_of apiKey) in
      let choice := fun scene => {| choice_id := scene_id scene;
                                    choice_name := metadata_name scene |} in
      (exists k : Settled (list HueScene) -> task unit (list SceneChoice),
         run (getAvailableScenes bridgeIp apiKey) w
         = (record (Requested (Call_getScenes client)) w, Pending (Call_getScenes client) k)
         /\ (forall bridge w',
               run (k (Fulfilled bridge)) w' = (w', Finished (Fulfilled (choice <$> bridge))))
         /\ (forall e w',
               run (k (Rejected e)) w'
               = (record (Did (LogWith LError "Failed to fetch scenes for UI:" e)) w',
                  Finished (Fulfilled []))))
      /\ (exists k : Settled (HueResourceResponse HueScene) -> http unit (list SceneChoice),
            run (link (getAvailableScenes bridgeIp apiKey)) wh
            = (record (Requested (ClientGetScenes client "/resource/scene")) wh,
               Pending (ClientGetScenes client "/resource/scene") k)
            /\ (forall response w',
                  errors response = [] ->
                  run (k (Fulfilled response)) w'
                  = (w', Finished (Fulfilled (choice <$> data response))))
            /\ (forall response w',
                  errors response <> [] ->
                  run (k (Fulfilled response)) w'
                  = (record (Did (LogWith LError "Failed to fetch scenes for UI:"
                                    (PlainError ("Hue API errors: "
                                                   +:+ join_descriptions (errors response)))))
                       w',
                     Finished (Fulfilled []))))).
Proof.
  split.
  - intros Hmissing. unfold getAvailableScenes.
    assert (negb (truthy_text bridgeIp) || negb (truthy_text apiKey) = true) as ->
      by (destruct Hmissing as [-> | ->]; [reflexivity | apply orb_true_r]).
    split; reflexivity.
  - intros Hip Hkey client choice. unfold getAvailableScenes. rewrite Hip, Hkey. simpl.
    split.
    + eexists. split; [reflexivity|]. split; intros; reflexivity.
    + eexists. split; [reflexivity|]. split.
      * intros response w' Herrs. simpl. unfold check_errors. rewrite Herrs. reflexivity.
      * intros response w' Herrs. simpl. unfold check_errors.
        destruct (errors response) eqn:E; [contradiction|]. reflexivity.
Qed.

Lemma getAvailableScenes_never_rejects_witness :
  run (getAvailableScenes (Some "192.168.1.100") None) (fresh_world (Sig:=ApiCall) tt)
  = (fresh_world tt, Finished (Fulfilled []))
  /\ exists k : Settled (list HueScene) -> task unit (list SceneChoice),
       (run (getAvailableScenes (Some "192.168.1.100") (Some "test-api-key"))
          (fresh_world tt)).2
       = Pending (Call_getScenes example_api) k
       /\ run (k (Fulfilled bridge_BA)) (fresh_world tt)
          = (fresh_world tt,
             Finished (Fulfilled [ {| choice_id := "B"; choice_name := "Wind down" |};
                                   {| choice_id := "A"; choice_name := "Wake up" |} ])).
Proof.
  split.
  - apply (getAvailableScenes_never_rejects (Some "192.168.1.100") None
             (fresh_world tt) (fresh_world tt)).
    right. reflexivity.
  - destruct (getAvailableScenes_never_rejects (Some "192.168.1.100") (Some "test-api-key")
                (fresh_world tt) (fresh_world tt)) as (_ & Hconfigured).
    destruct (Hconfigured eq_refl eq_refl) as ((k & Hrun & Hok & _) & _).
    exists k. split; [rewrite Hrun; reflexivity|]. apply Hok.
Defined.
